(** * pat: connection dispatch (connect.go)

    A shallow embedding of the dial orchestrator of pat: [Connect],
    [connectAny], [qsy], [waitBusy] and the three modem-initialisation
    routines, together with the package-level variables they share.

    The Go code talks to many collaborators that live outside the file
    (modem libraries, hamlib rigs, the transport registry, the websocket
    hub, the event log).  Every such call is recorded as an [Event] in a
    chronological trace, and its answer is read from an abstract world
    [W] that moves on with every event.  Theorems quantify over all
    worlds, so they hold whatever the hardware answers. *)

From stdpp Require Import base strings list gmap pretty.
From Stdlib Require Import ZArith Lia.

Open Scope string_scope.
Open Scope Z_scope.
Open Scope list_scope.

(** ** Go values *)

(** Go [error] values.  [Canceled] is [context.Canceled]; [ErrNew] is an
    error that wraps nothing (errors.New, fmt.Errorf without %w, or an
    error of a collaborator); [ErrWrap p e] is
    [fmt.Errorf(p + "%w", e)]. *)
Inductive error : Type :=
| Canceled
| ErrNew (msg : string)
| ErrWrap (prefix : string) (inner : error).

(** [err.Error()] *)
Fixpoint Error (e : error) : string :=
  match e with
  | Canceled => "context canceled"
  | ErrNew msg => msg
  | ErrWrap p inner => p +:+ Error inner
  end.

(** [errors.Is(err, context.Canceled)] on a possibly nil error: follows
    the chain of wrapped errors. *)
Fixpoint is_Canceled (e : error) : bool :=
  match e with
  | Canceled => true
  | ErrNew _ => false
  | ErrWrap _ inner => is_Canceled inner
  end.

Definition errors_Is_Canceled (err : option error) : bool :=
  match err with
  | Some e => is_Canceled e
  | None => false
  end.

(** [fmt.Errorf(p + "%w", err)] where [err] may be nil: a nil operand is
    printed as [%!w(<nil>)] and nothing is wrapped. *)
Definition Errorf_w (p : string) (err : option error) : error :=
  match err with
  | Some e => ErrWrap p e
  | None => ErrNew (p +:+ "%!w(<nil>)")
  end.

(** [strings.Contains] *)
Fixpoint strings_Contains (s substr : string) : bool :=
  if String.prefix substr s then true
  else match s with
       | EmptyString => false
       | String _ s' => strings_Contains s' substr
       end.

(** [strings.Join] *)
Fixpoint strings_Join (elems : list string) (sep : string) : string :=
  match elems with
  | [] => ""
  | [x] => x
  | x :: rest => x +:+ sep +:+ strings_Join rest sep
  end.

(** [strconv.ParseBool]: the value and whether parsing succeeded.  On a
    syntax error Go returns [false] together with the error. *)
Definition strconv_ParseBool (str : string) : bool * bool :=
  if bool_decide (str ∈ ["1"; "t"; "T"; "TRUE"; "true"; "True"]) then (true, true)
  else if bool_decide (str ∈ ["0"; "f"; "F"; "FALSE"; "false"; "False"]) then (false, true)
  else (false, false).

(** [fmt.Sprint] of an int. *)
Definition fmt_Sprint (n : Z) : string := pretty n.

(** ** Transport URLs *)

Record Userinfo : Type := mkUserinfo {
  username : string;
  password : option string
}.

(** [url.Values]: [map[string][]string]. *)
Abbreviation Values := (gmap string (list string)).

Definition Values_Get (v : Values) (key : string) : string :=
  match v !! key with
  | Some (x :: _) => x
  | _ => ""
  end.

Definition Values_Set (v : Values) (key value : string) : Values :=
  <[key := [value]]> v.

(** [transport.URL] *)
Record URL : Type := mkURL {
  Scheme : string;
  Host : string;
  User : option Userinfo;
  Target : string;
  Digis : list string;
  Params : Values
}.

(** [Userinfo.Username] (pointer receiver) accepts a nil receiver. *)
Definition Username (u : option Userinfo) : string :=
  match u with
  | Some i => username i
  | None => ""
  end.

Definition SetUser (call : string) (u : URL) : URL :=
  mkURL (Scheme u) (Host u) (Some (mkUserinfo call None)) (Target u) (Digis u) (Params u).

Definition SetHost (h : string) (u : URL) : URL :=
  mkURL (Scheme u) h (User u) (Target u) (Digis u) (Params u).

Definition SetParam (key value : string) (u : URL) : URL :=
  mkURL (Scheme u) (Host u) (User u) (Target u) (Digis u) (Values_Set (Params u) key value).

(** Modelled from the spec: the scheme constants are declared in another
    file of the package; the spec lists the scheme names
    (ardop, pactor, varahf, varafm, ax25, telnet, serial-tnc). *)
Definition MethodArdop : string := "ardop".
Definition MethodPactor : string := "pactor".
Definition MethodVaraHF : string := "varahf".
Definition MethodVaraFM : string := "varafm".
Definition MethodAX25 : string := "ax25".
Definition MethodSerialTNC : string := "serial-tnc".
Definition MethodTelnet : string := "telnet".

(** ** Handles of collaborators

    Pointers to modems, rigs and connections are opaque identifiers. *)
Definition Handle := nat.   (* pointer to ardop.TNC, pactor.Modem or vara.Modem *)
Definition VFO := nat.      (* hamlib.VFO *)
Definition Conn := nat.     (* net.Conn *)

(** ** Configuration (read-only while connecting) *)

Module Bandwidth.
(** [ardop.Bandwidth] *)
Record t : Type := mk { Forced : bool; Max : N }.
Definition IsZero (bw : t) : bool := (Max bw =? 0)%N.
End Bandwidth.

Module ArdopConfig.
Record t : Type := mk {
  Addr : string;
  ARQBandwidth : Bandwidth.t;
  CWID : bool;
  PTTControl : bool;
  Rig : string
}.
End ArdopConfig.

Module PactorConfig.
Record t : Type := mk {
  Path : string;
  Baudrate : Z;
  InitScript : string
}.
End PactorConfig.

Module VaraConfig.
(** [cfg.VaraConfig] *)
Record t : Type := mk {
  Host : string;
  CmdPort : Z;
  DataPort : Z;
  PTTControl : bool;
  Rig : string
}.
End VaraConfig.

Module ModemConfig.
(** [vara.ModemConfig] *)
Record t : Type := mk { Host : string; CmdPort : Z; DataPort : Z }.
End ModemConfig.

Module SerialTNCConfig.
Record t : Type := mk { Path : string; HBaud : Z; SerialBaud : Z }.
End SerialTNCConfig.

(** The parts of [config], [fOptions] and [rigs] that connect.go reads. *)
Record Config : Type := mkConfig {
  ConnectAliases : gmap string string;
  Locator : string;
  Ardop : ArdopConfig.t;
  Pactor : PactorConfig.t;
  VaraHF : VaraConfig.t;
  VaraFM : VaraConfig.t;
  AX25_Port : string;
  SerialTNC : SerialTNCConfig.t;
  MyCall : string;          (* fOptions.MyCall *)
  RadioOnly : bool;         (* fOptions.RadioOnly *)
  IgnoreBusy : bool;        (* fOptions.IgnoreBusy *)
  rigs : gmap string VFO
}.

(** ** Answers of the collaborators *)

(** The two results of [ardop.OpenTCP] and [vara.NewModem].  A nil
    error comes with a usable handle; with an error the handle may or
    may not be nil. *)
Inductive OpenResult : Type :=
| OpenOk (h : Handle)
| OpenFail (h : option Handle) (err : error).

Definition opened_handle (r : OpenResult) : option Handle :=
  match r with
  | OpenOk h => Some h
  | OpenFail h _ => h
  end.

(** The four results of [VFOForTransport(method)]. *)
Record VFOLookup : Type := mkVFOLookup {
  vfo_rig : VFO;
  vfo_rigName : string;
  vfo_ok : bool;
  vfo_err : option error
}.

(** What happens to [transport.DialURLContext] while it blocks: either it
    returns by itself, or the operator task invokes the package-level
    cancellation hook while the dial is in flight, upon which the dial
    unblocks with the context's cancellation error (possibly wrapped by
    the transport, outermost prefix first). *)
Inductive DialReply : Type :=
| DialReturned (conn : option Conn) (err : option error)
| DialCancelledInFlight (wrapped : list string).

Definition cancellation_error (wrapped : list string) : error :=
  foldr ErrWrap Canceled wrapped.

(** ** Log lines *)

Inductive LogMsg : Type :=
| LogError (e : error)                         (* log.Println(err) *)
| LogRadioOnlySSID                             (* "Radio Only does not support callsign with SSID" *)
| LogRadioOnlyNotAvailable (scheme : string)   (* "Radio-Only is not available for %s" *)
| LogUnableToQSY (e : error)                   (* "Unable to QSY: %s" *)
| LogQSY (method addr : string)                (* "QSY %s: %s" *)
| LogQSX (method : string) (oldFreq : Z)       (* "QSX %s: %.3f" *)
| LogIgnoringBusy                              (* "Ignoring busy channel!" *)
| LogWaitingClear                              (* "Waiting for clear channel..." *)
| LogConnecting (target scheme : string)       (* "Connecting to %s (%s)..." *)
| LogConnectCancelled                          (* "Connect cancelled" *)
| LogUnableToEstablish (e : error)             (* "Unable to establish connection to remote: %s" *)
| LogExchangeFailed (e : error)                (* "Exchange failed: %s" *)
| LogDisconnected                              (* "Disconnected." *)
| LogArdopInitialized (v : string).            (* "ARDOP TNC (%s) initialized" *)

(** ** Events: every call that leaves connect.go *)

Inductive Event : Type :=
| EvDebug (connectStr : string)
| EvLog (m : LogMsg)
| EvSleep (ms : Z)
| EvUpdateStatus
| EvLogConn (what : string) (freq : Z) (conn : option Conn) (err : option error)
| EvRegisterDialer (scheme : string) (h : Handle)
| EvArdopPing (h : Handle) (r : option error)
| EvArdopClose (h : Handle)
| EvArdopOpenTCP (addr mycall locator : string) (r : OpenResult)
| EvArdopSetARQBandwidth (h : Handle) (bw : Bandwidth.t) (r : option error)
| EvArdopSetCWID (h : Handle) (on : bool) (r : option error)
| EvArdopVersion (h : Handle) (v : string) (r : option error)
| EvArdopSetPTT (h : Handle) (rig : VFO)
| EvArdopBusy (h : Handle) (busy : bool)
| EvPactorClose (h : Handle)
| EvPactorOpenModem (path : string) (baud : Z) (mycall initScript cmdlineinit : string)
                    (h : option Handle) (r : option error)
| EvVaraClose (h : Handle)
| EvVaraNewModem (scheme mycall : string) (conf : ModemConfig.t) (r : OpenResult)
| EvVaraSetPTT (h : Handle) (rig : VFO)
| EvRigGetFreq (rig : VFO) (f : Z) (r : option error)
| EvRigSetFreq (rig : VFO) (f : Z) (r : option error)
| EvContextCancel (ctx : nat)
| EvDial (ctx : nat) (url : URL) (r : DialReply)
| EvExchange (conn : option Conn) (target : string) (r : option error).

(** The collaborators: what each call answers in a given world, and how
    the world moves on after an event. *)
Record External (W : Type) : Type := mkExternal {
  ParseURL : string → URL + error;                    (* transport.ParseURL *)
  VFOForTransport : string → VFOLookup;
  parseFreq : string → Z + error;                     (* kHz text to Hz *)
  ans_Ping : Handle → W → option error;
  ans_OpenTCP : string → string → string → W → OpenResult;
  ans_SetARQBandwidth : Handle → Bandwidth.t → W → option error;
  ans_SetCWID : Handle → bool → W → option error;
  ans_Version : Handle → W → string * option error;
  ans_Busy : Handle → W → bool;
  ans_OpenModem : string → Z → string → string → string → W → option Handle * option error;
  ans_NewModem : string → string → ModemConfig.t → W → OpenResult;
  ans_GetFreq : VFO → W → Z * option error;
  ans_SetFreq : VFO → Z → W → option error;
  ans_Dial : nat → URL → W → DialReply;
  ans_exchange : option Conn → string → W → option error;
  observe : Event → W → W
}.

Arguments ParseURL {W}.
Arguments VFOForTransport {W}.
Arguments parseFreq {W}.
Arguments ans_Ping {W}.
Arguments ans_OpenTCP {W}.
Arguments ans_SetARQBandwidth {W}.
Arguments ans_SetCWID {W}.
Arguments ans_Version {W}.
Arguments ans_Busy {W}.
Arguments ans_OpenModem {W}.
Arguments ans_NewModem {W}.
Arguments ans_GetFreq {W}.
Arguments ans_SetFreq {W}.
Arguments ans_Dial {W}.
Arguments ans_exchange {W}.
Arguments observe {W}.

(** ** Function values

    The closures that connect.go creates, stores in [dialCancelFunc] or
    hands to [defer]. *)
Inductive Closure : Type :=
| FnNoop                                              (* func() {} *)
| FnCancelDial (ctx : nat)                            (* func() { dialing = nil; cancel() } *)
| FnRevert (method : string) (rig : VFO) (oldFreq : Z) (* the revert returned by qsy *)
| FnStatusHack.                                       (* func() { time.Sleep(time.Second); websocketHub.UpdateStatus() } *)

(** ** Package state *)

Record State (W : Type) : Type := mkState {
  dialing : option URL;
  adTNC : option Handle;
  pModem : option Handle;
  varaHFModem : option Handle;
  varaFMModem : option Handle;
  dialCancelFunc : Closure;
  ctx_count : nat;               (* contexts created so far *)
  ctx_cancelled : list nat;      (* contexts whose cancel func has run *)
  world : W;
  trace : list Event             (* oldest event first *)
}.

Arguments mkState {W}.
Arguments dialing {W}.
Arguments adTNC {W}.
Arguments pModem {W}.
Arguments varaHFModem {W}.
Arguments varaFMModem {W}.
Arguments dialCancelFunc {W}.
Arguments ctx_count {W}.
Arguments ctx_cancelled {W}.
Arguments world {W}.
Arguments trace {W}.

(** How a function body ends when it does not fall through to the next
    statement. *)
Inductive Exit : Type :=
| ExReturn (success : bool)   (* a return statement *)
| ExPanic                     (* nil pointer dereference *)
| ExDiverge.                  (* a loop that never ends *)

(** What the caller of [Connect] sees. *)
Inductive Outcome : Type :=
| Returned (success : bool)
| Panicked.

Section Dispatch.
Context {W : Type}.
Variable X : External W.
Variable config : Config.

(** *** State monad over the package state *)

Definition M (A : Type) : Type := State W → A * State W.

Definition ret {A} (a : A) : M A := fun st => (a, st).

Definition bind {A B} (m : M A) (k : A → M B) : M B :=
  fun st => let (a, st') := m st in k a st'.

Notation "x <~ m ;; k" := (bind m (fun x => k))
  (at level 20, m at level 99, k at level 200, only parsing).
Notation "' x <~ m ;; k" := (bind m (fun x => k))
  (at level 20, x pattern, m at level 99, k at level 200, only parsing).
Notation "m ;;; k" := (bind m (fun _ => k))
  (at level 100, k at level 200, only parsing, right associativity).

Definition run {A} (m : M A) (st : State W) : State W := snd (m st).

(** Record an event and let the world move on. *)
Definition emit (e : Event) : M unit := fun st =>
  (tt, mkState (dialing st) (adTNC st) (pModem st) (varaHFModem st) (varaFMModem st)
               (dialCancelFunc st) (ctx_count st) (ctx_cancelled st)
               (observe X e (world st)) (trace st ++ [e])).

(** Ask a collaborator: read its answer in the current world and record
    the call together with the answer. *)
Definition ask {A} (answer : W → A) (ev : A → Event) : M A := fun st =>
  let r := answer (world st) in (r, run (emit (ev r)) st).

Definition set_dialing (v : option URL) : M unit := fun st =>
  (tt, mkState v (adTNC st) (pModem st) (varaHFModem st) (varaFMModem st)
               (dialCancelFunc st) (ctx_count st) (ctx_cancelled st) (world st) (trace st)).

Definition set_adTNC (v : option Handle) : M unit := fun st =>
  (tt, mkState (dialing st) v (pModem st) (varaHFModem st) (varaFMModem st)
               (dialCancelFunc st) (ctx_count st) (ctx_cancelled st) (world st) (trace st)).

Definition set_pModem (v : option Handle) : M unit := fun st =>
  (tt, mkState (dialing st) (adTNC st) v (varaHFModem st) (varaFMModem st)
               (dialCancelFunc st) (ctx_count st) (ctx_cancelled st) (world st) (trace st)).

Definition set_dialCancelFunc (f : Closure) : M unit := fun st =>
  (tt, mkState (dialing st) (adTNC st) (pModem st) (varaHFModem st) (varaFMModem st)
               f (ctx_count st) (ctx_cancelled st) (world st) (trace st)).

(** *** Collaborator calls *)

Definition log_Print (m : LogMsg) : M unit := emit (EvLog m).
Definition time_Sleep (ms : Z) : M unit := emit (EvSleep ms).
Definition UpdateStatus : M unit := emit EvUpdateStatus.

Definition TNC_Ping (h : Handle) : M (option error) :=
  ask (ans_Ping X h) (EvArdopPing h).
Definition TNC_Close (h : Handle) : M unit := emit (EvArdopClose h).
Definition ardop_OpenTCP (addr mycall locator : string) : M OpenResult :=
  ask (ans_OpenTCP X addr mycall locator) (EvArdopOpenTCP addr mycall locator).
Definition TNC_SetARQBandwidth (h : Handle) (bw : Bandwidth.t) : M (option error) :=
  ask (ans_SetARQBandwidth X h bw) (EvArdopSetARQBandwidth h bw).
Definition TNC_SetCWID (h : Handle) (on : bool) : M (option error) :=
  ask (ans_SetCWID X h on) (EvArdopSetCWID h on).
Definition TNC_Version (h : Handle) : M (string * option error) :=
  ask (ans_Version X h) (fun r => EvArdopVersion h (fst r) (snd r)).
Definition TNC_SetPTT (h : Handle) (rig : VFO) : M unit := emit (EvArdopSetPTT h rig).
Definition TNC_Busy (h : Handle) : M bool :=
  ask (ans_Busy X h) (EvArdopBusy h).

Definition pactor_Close (h : Handle) : M unit := emit (EvPactorClose h).
Definition pactor_OpenModem (path : string) (baud : Z) (mycall initScript cmdlineinit : string)
  : M (option Handle * option error) :=
  ask (ans_OpenModem X path baud mycall initScript cmdlineinit)
      (fun r => EvPactorOpenModem path baud mycall initScript cmdlineinit (fst r) (snd r)).

Definition vara_Close (h : Handle) : M unit := emit (EvVaraClose h).
Definition vara_NewModem (scheme mycall : string) (conf : ModemConfig.t) : M OpenResult :=
  ask (ans_NewModem X scheme mycall conf) (EvVaraNewModem scheme mycall conf).
Definition vara_SetPTT (h : Handle) (rig : VFO) : M unit := emit (EvVaraSetPTT h rig).

Definition RegisterDialer (scheme : string) (h : Handle) : M unit :=
  emit (EvRegisterDialer scheme h).

Definition VFO_GetFreq (rig : VFO) : M (Z * option error) :=
  ask (ans_GetFreq X rig) (fun r => EvRigGetFreq rig (fst r) (snd r)).
Definition VFO_SetFreq (rig : VFO) (f : Z) : M (option error) :=
  ask (ans_SetFreq X rig f) (EvRigSetFreq rig f).

Definition exchange (conn : option Conn) (target : string) : M (option error) :=
  ask (ans_exchange X conn target) (EvExchange conn target).

(** *** Contexts and closures *)

(** The cancel function of a context: the first call cancels, later
    calls do nothing. *)
Definition context_cancel (ctx : nat) : M unit := fun st =>
  if bool_decide (ctx ∈ ctx_cancelled st) then (tt, st)
  else
    let st := run (emit (EvContextCancel ctx)) st in
    (tt, mkState (dialing st) (adTNC st) (pModem st) (varaHFModem st) (varaFMModem st)
                 (dialCancelFunc st) (ctx_count st) (ctx :: ctx_cancelled st)
                 (world st) (trace st)).

(** [context.WithCancel(context.Background())] *)
Definition context_WithCancel : M nat := fun st =>
  (ctx_count st,
   mkState (dialing st) (adTNC st) (pModem st) (varaHFModem st) (varaFMModem st)
           (dialCancelFunc st) (S (ctx_count st)) (ctx_cancelled st) (world st) (trace st)).

(** Calling a function value. *)
Definition call (f : Closure) : M unit :=
  match f with
  | FnNoop => ret tt
  | FnCancelDial ctx =>
      set_dialing None ;;;
      context_cancel ctx
  | FnRevert method rig oldFreq =>
      time_Sleep 1000 ;;;
      log_Print (LogQSX method oldFreq) ;;;
      _ <~ VFO_SetFreq rig oldFreq ;;
      ret tt
  | FnStatusHack =>
      time_Sleep 1000 ;;;
      UpdateStatus
  end.

(** [transport.DialURLContext(ctx, url)].  If the operator invokes the
    package-level hook [dialCancelFunc] while the dial blocks, the hook
    runs on the package state and the dial returns the cancellation
    error. *)
Definition DialURLContext (ctx : nat) (url : URL) : M (option Conn * option error) :=
  r <~ ask (ans_Dial X ctx url) (EvDial ctx url) ;;
  match r with
  | DialReturned conn err => ret (conn, err)
  | DialCancelledInFlight wrapped =>
      (fun st => call (dialCancelFunc st) st) ;;;
      ret (None, Some (cancellation_error wrapped))
  end.

(** *** hasSSID *)

Definition hasSSID (str : string) : bool := strings_Contains str "-".

(** *** qsy *)

(** Modelled from the spec: [setFreq] is defined in another file of the
    package.  It reads and remembers the current frequency of the rig
    and commands the target frequency; it returns the new frequency,
    the remembered one and an error. *)
Definition setFreq (rig : VFO) (freq : string) : M (Z * Z * option error) :=
  '(oldFreq, err) <~ VFO_GetFreq rig ;;
  match err with
  | Some e => ret (0, 0, Some e)
  | None =>
      match parseFreq X freq with
      | inr e => ret (0, 0, Some e)
      | inl newFreq =>
          err <~ VFO_SetFreq rig newFreq ;;
          ret (newFreq, oldFreq, err)
      end
  end.

Definition qsy (method addr : string) : M (Closure * option error) :=
  let noop := FnNoop in
  let lookup := VFOForTransport X method in
  match vfo_err lookup with
  | Some err => ret (noop, Some err)
  | None =>
      if negb (vfo_ok lookup) then
        ret (noop, Some (ErrNew ("hamlib rig '" +:+ vfo_rigName lookup +:+ "' not loaded")))
      else
        let rig := vfo_rig lookup in
        log_Print (LogQSY method addr) ;;;
        '(_, oldFreq, err) <~ setFreq rig addr ;;
        match err with
        | Some e => ret (noop, Some e)
        | None =>
            time_Sleep 3000 ;;;
            ret (FnRevert method rig oldFreq, None)
        end
  end.

(** *** waitBusy

    The loop of [waitBusy], with the local variable [printed] as an
    argument; [fuel] bounds the number of polls. *)
Fixpoint waitBusy_loop (fuel : nat) (b : Handle) (printed : bool) (st : State W)
  : option (State W) :=
  match fuel with
  | O => None
  | S fuel' =>
      let (busy, st) := TNC_Busy b st in
      if busy then
        if negb printed && IgnoreBusy config then
          Some (run (log_Print LogIgnoringBusy) st)
        else
          let st := if negb printed then run (log_Print LogWaitingClear) st else st in
          waitBusy_loop fuel' b true (run (time_Sleep 300) st)
      else Some st
  end.

Definition waitBusy (fuel : nat) (b : Handle) (st : State W) : option (State W) :=
  waitBusy_loop fuel b false st.

(** *** Modem initialisation *)

Definition gets {A} (f : State W → A) : M A := fun st => (f st, st).

Definition is_nil {A} (x : option A) : bool :=
  match x with
  | None => true
  | Some _ => false
  end.

Definition initArdopTNC : M (option error) :=
  let conf := Ardop config in
  tnc <~ gets adTNC ;;
  healthy <~ match tnc with
             | Some h => r <~ TNC_Ping h ;; ret (is_nil r)
             | None => ret false
             end ;;
  if healthy then ret None
  else
    match tnc with
    | Some h => TNC_Close h
    | None => ret tt
    end ;;;
    r <~ ardop_OpenTCP (ArdopConfig.Addr conf) (MyCall config) (Locator config) ;;
    set_adTNC (opened_handle r) ;;;
    match r with
    | OpenFail _ err => ret (Some (ErrWrap "ARDOP TNC initialization failed: " err))
    | OpenOk h =>
        let bw := ArdopConfig.ARQBandwidth conf in
        e1 <~ (if negb (Bandwidth.IsZero bw) then TNC_SetARQBandwidth h bw else ret None) ;;
        match e1 with
        | Some e => ret (Some (ErrWrap "unable to set ARQ bandwidth for ardop TNC: " e))
        | None =>
            e2 <~ TNC_SetCWID h (ArdopConfig.CWID conf) ;;
            match e2 with
            | Some e => ret (Some (ErrWrap "unable to configure CWID for ardop TNC: " e))
            | None =>
                '(v, e3) <~ TNC_Version h ;;
                match e3 with
                | Some e => ret (Some (ErrNew ("ARDOP TNC initialization failed: " +:+ Error e)))
                | None =>
                    log_Print (LogArdopInitialized v) ;;;
                    RegisterDialer MethodArdop h ;;;
                    if negb (ArdopConfig.PTTControl conf) then ret None
                    else
                      match rigs config !! ArdopConfig.Rig conf with
                      | None =>
                          ret (Some (ErrNew ("unable to set PTT rig '" +:+ ArdopConfig.Rig conf
                                             +:+ "': Not defined or not loaded")))
                      | Some rig => TNC_SetPTT h rig ;;; ret None
                      end
                end
            end
        end
    end.

Definition initPactorModem (cmdlineinit : string) : M (option error) :=
  let conf := Pactor config in
  pm <~ gets pModem ;;
  match pm with
  | Some h => pactor_Close h
  | None => ret tt
  end ;;;
  '(h, err) <~ pactor_OpenModem (PactorConfig.Path conf) (PactorConfig.Baudrate conf)
                                (MyCall config) (PactorConfig.InitScript conf) cmdlineinit ;;
  set_pModem h ;;;
  match h, err with
  | Some h', None =>
      RegisterDialer MethodPactor h' ;;;
      ret None
  | _, _ => ret (Some (Errorf_w "pactor initialization failed: " err))
  end.

(** [vModem] is a parameter of the Go function: the pointer is passed by
    value, and the assignment [vModem, err = vara.NewModem(...)] writes
    the local copy.  No package variable is written. *)
Definition initVaraModem (vModem : option Handle) (scheme : string) (conf : VaraConfig.t)
  : M (option error) :=
  match vModem with
  | Some h => vara_Close h
  | None => ret tt
  end ;;;
  let vConf := ModemConfig.mk (VaraConfig.Host conf) (VaraConfig.CmdPort conf)
                              (VaraConfig.DataPort conf) in
  r <~ vara_NewModem scheme (MyCall config) vConf ;;
  match r with
  | OpenFail _ err => ret (Some (ErrWrap "vara initialization failed: " err))
  | OpenOk h =>
      RegisterDialer scheme h ;;;
      if negb (VaraConfig.PTTControl conf) then ret None
      else
        match rigs config !! VaraConfig.Rig conf with
        | None =>
            ret (Some (ErrNew ("unable to set PTT rig '" +:+ VaraConfig.Rig conf
                               +:+ "': not defined or not loaded")))
        | Some rig => vara_SetPTT h rig ;;; ret None
        end
  end.

(** *** Function bodies with [defer] and early exits

    A body runs against the stack of deferred calls of its frame (most
    recent first) and the package state. *)
Definition Body (A : Type) : Type :=
  list Closure → State W → (A + Exit) * list Closure * State W.

Definition bret {A} (a : A) : Body A := fun ds st => (inl a, ds, st).

Definition bbind {A B} (m : Body A) (k : A → Body B) : Body B := fun ds st =>
  match m ds st with
  | (inl a, ds', st') => k a ds' st'
  | (inr x, ds', st') => (inr x, ds', st')
  end.

Notation "x <- m ;; k" := (bbind m (fun x => k))
  (at level 20, m at level 99, k at level 200, only parsing).
Notation "' x <- m ;; k" := (bbind m (fun x => k))
  (at level 20, x pattern, m at level 99, k at level 200, only parsing).
Notation "m ;> k" := (bbind m (fun _ => k))
  (at level 100, k at level 200, only parsing, right associativity).

Definition lift {A} (m : M A) : Body A := fun ds st =>
  let (a, st') := m st in (inl a, ds, st').

Definition defer (f : Closure) : Body unit := fun ds st => (inl tt, f :: ds, st).

Definition exit {A} (x : Exit) : Body A := fun ds st => (inr x, ds, st).

(** Deferred calls run last-in-first-out when the function returns. *)
Definition run_deferred (ds : list Closure) (st : State W) : State W :=
  foldl (fun st f => run (call f) st) st ds.

(** *** Connect *)

Definition newline : string := String (Ascii.ascii_of_nat 10) EmptyString.

(** [if err := init(); err != nil { log.Println(err); return }] *)
Definition init_or_return (init : M (option error)) : Body unit :=
  err <- lift init ;;
  match err with
  | Some e => lift (log_Print (LogError e)) ;> exit (ExReturn false)
  | None => bret tt
  end.

(** "Init TNCs" *)
Definition initTNCs (url : URL) : Body unit :=
  if decide (Scheme url = MethodArdop) then
    init_or_return initArdopTNC
  else if decide (Scheme url = MethodPactor) then
    let ptCmdInit := match Params url !! "init" with
                     | Some val => strings_Join val newline
                     | None => ""
                     end in
    init_or_return (initPactorModem ptCmdInit)
  else if decide (Scheme url = MethodVaraHF) then
    vModem <- lift (gets varaHFModem) ;;
    init_or_return (initVaraModem vModem MethodVaraHF (VaraHF config))
  else if decide (Scheme url = MethodVaraFM) then
    vModem <- lift (gets varaFMModem) ;;
    init_or_return (initVaraModem vModem MethodVaraFM (VaraFM config))
  else bret tt.

(** "Set default userinfo (mycall)" and "Set default host interface
    address" *)
Definition applyDefaults (url : URL) : URL :=
  let url := match User url with
             | None => SetUser (MyCall config) url
             | Some _ => url
             end in
  if decide (Host url = "") then
    if decide (Scheme url = MethodAX25) then SetHost (AX25_Port config) url
    else if decide (Scheme url = MethodSerialTNC) then
      let conf := SerialTNC config in
      let url := SetHost (SerialTNCConfig.Path conf) url in
      let hbaud := SerialTNCConfig.HBaud conf in
      let url := if 0 <? hbaud then SetParam "hbaud" (fmt_Sprint hbaud) url else url in
      let sbaud := SerialTNCConfig.SerialBaud conf in
      if 0 <? sbaud then SetParam "serial_baud" (fmt_Sprint sbaud) url else url
    else url
  else url.

(** The value of the local [radioOnly]. *)
Definition radioOnly (url : URL) : bool :=
  let v := Values_Get (Params url) "radio_only" in
  if decide (v = "") then RadioOnly config else fst (strconv_ParseBool v).

(** "Radio Only?" *)
Definition applyRadioOnly (url : URL) : Body URL :=
  if radioOnly url then
    if hasSSID (MyCall config) then
      lift (log_Print LogRadioOnlySSID) ;> exit (ExReturn false)
    else if bool_decide (Scheme url = MethodAX25 ∨ Scheme url = MethodSerialTNC) then
      lift (log_Print (LogRadioOnlyNotAvailable (Scheme url))) ;> exit (ExReturn false)
    else bret (SetUser (Username (User url) +:+ "-T") url)
  else bret url.

(** "QSY" *)
Definition connectQSY (url : URL) : Body unit :=
  let freq := Values_Get (Params url) "freq" in
  if decide (freq = "") then bret tt
  else
    '(revertFreq, err) <- lift (qsy (Scheme url) freq) ;;
    match err with
    | Some e => lift (log_Print (LogUnableToQSY e)) ;> exit (ExReturn false)
    | None => defer revertFreq
    end.

(** The frequency snapshot [currFreq] for the event log. *)
Definition snapshotFreq (url : URL) : M Z :=
  let lookup := VFOForTransport X (Scheme url) in
  if vfo_ok lookup then
    '(f, _) <~ VFO_GetFreq (vfo_rig lookup) ;;
    ret f
  else ret 0.

(** "Wait for a clear channel" *)
Definition waitClearChannel (fuel : nat) (url : URL) : Body unit :=
  if decide (Scheme url = MethodArdop) then
    fun ds st =>
      match adTNC st with
      | None => (inr ExPanic, ds, st)
      | Some b =>
          match waitBusy fuel b st with
          | None => (inr ExDiverge, ds, st)
          | Some st' => (inl tt, ds, st')
          end
      end
  else bret tt.

(** From [context.WithCancel] to the end of [Connect]. *)
Definition connectDial (connectStr : string) (url : URL) (currFreq : Z) : Body bool :=
  ctx <- lift context_WithCancel ;;
  let cancelFn := FnCancelDial ctx in
  lift (set_dialCancelFunc cancelFn) ;>
  defer cancelFn ;>
  (* Signal web gui that we are dialing a connection *)
  lift (set_dialing (Some url)) ;>
  lift UpdateStatus ;>
  lift (log_Print (LogConnecting (Target url) (Scheme url))) ;>
  '(conn, err) <- lift (DialURLContext ctx url) ;;
  (* Signal web gui that we are no longer dialing *)
  lift (set_dialing None) ;>
  lift UpdateStatus ;>
  lift (emit (EvLogConn ("connect " +:+ connectStr) currFreq conn err)) ;>
  if errors_Is_Canceled err then
    lift (log_Print LogConnectCancelled) ;> exit (ExReturn false)
  else
    match err with
    | Some e => lift (log_Print (LogUnableToEstablish e)) ;> exit (ExReturn false)
    | None =>
        err <- lift (exchange conn (Target url)) ;;
        match err with
        | Some e => lift (log_Print (LogExchangeFailed e)) ;> bret false
        | None => lift (log_Print LogDisconnected) ;> bret true
        end
    end.

(** From the status hack to the radio-only check: everything that
    happens before the QSY. *)
Definition connectPrologue (connectStr : string) : Body URL :=
  defer FnStatusHack ;>
  lift (emit (EvDebug connectStr)) ;>
  match ParseURL X connectStr with
  | inr err => lift (log_Print (LogError err)) ;> exit (ExReturn false)
  | inl url =>
      initTNCs url ;>
      applyRadioOnly (applyDefaults url)
  end.

(** From the QSY to the busy-channel gate: together with the prologue,
    everything that happens before the dial.  The result is the final
    descriptor and the frequency snapshot. *)
Definition connectPrepare (fuel : nat) (connectStr : string) : Body (URL * Z) :=
  url <- connectPrologue connectStr ;;
  connectQSY url ;>
  currFreq <- lift (snapshotFreq url) ;;
  waitClearChannel fuel url ;>
  bret (url, currFreq).

(** The body of [Connect] after the empty-string and alias checks. *)
Definition connectBody (fuel : nat) (connectStr : string) : Body bool :=
  '(url, currFreq) <- connectPrepare fuel connectStr ;;
  connectDial connectStr url currFreq.

(** Leaving the function: the deferred calls run, then the caller sees
    the result.  A loop that never ends never gets here. *)
Definition leave (r : (bool + Exit) * list Closure * State W) : option (Outcome * State W) :=
  match r with
  | (inl success, ds, st) => Some (Returned success, run_deferred ds st)
  | (inr (ExReturn success), ds, st) => Some (Returned success, run_deferred ds st)
  | (inr ExPanic, ds, st) => Some (Panicked, run_deferred ds st)
  | (inr ExDiverge, _, _) => None
  end.

(** [fuel] bounds the depth of alias resolution and the number of polls
    of the busy channel; [None] means that the bound was reached. *)
Fixpoint Connect (fuel : nat) (connectStr : string) (st : State W)
  : option (Outcome * State W) :=
  match fuel with
  | O => None
  | S fuel' =>
      if decide (connectStr = "") then Some (Returned false, st)
      else
        match ConnectAliases config !! connectStr with
        | Some aliased => Connect fuel' aliased st
        | None => leave (connectBody fuel' connectStr [] st)
        end
  end.

Fixpoint connectAny (fuel : nat) (connectStr : list string) (st : State W)
  : option (Outcome * State W) :=
  match connectStr with
  | [] => Some (Returned false, st)
  | str :: rest =>
      match Connect fuel str st with
      | None => None
      | Some (Returned true, st') => Some (Returned true, st')
      | Some (Returned false, st') => connectAny fuel rest st'
      | Some (Panicked, st') => Some (Panicked, st')
      end
  end.

End Dispatch.

Arguments Connect {W} X config fuel connectStr st.
Arguments connectAny {W} X config fuel connectStr st.
Arguments connectBody {W} X config fuel connectStr _ _.
Arguments connectPrologue {W} X config connectStr _ _.
Arguments connectPrepare {W} X config fuel connectStr _ _.
Arguments leave {W} X r.
Arguments run_deferred {W} X ds st : simpl never.

(** ** A small concrete world, for running the model *)

Module Lab.

(** The world counts the handles given out, remembers the frequency of
    the one rig and how many more polls the channel stays busy. *)
Record World : Type := mkWorld {
  next_handle : nat;
  rig_freq : Z;
  busy_polls : nat
}.

Record Scenario : Type := mkScenario {
  rig_loaded : bool;            (* is a rig configured and loaded? *)
  ping_reply : option error;    (* what a ping of the ARDOP TNC answers *)
  dial_reply : DialReply;       (* how the dial ends *)
  exchange_reply : option error
}.

Definition url (scheme target : string) (params : list (string * list string)) : URL :=
  mkURL scheme "" None target [] (list_to_map params).

(** Connect strings that the lab's parser accepts. *)
Definition known_urls : gmap string URL :=
  list_to_map
    [ ("ardop:///LA1B", url "ardop" "LA1B" []);
      ("ardop:///LA1B?freq=7100", url "ardop" "LA1B" [("freq", ["7100"])]);
      ("ardop:///LA1B?radio_only=true", url "ardop" "LA1B" [("radio_only", ["true"])]);
      ("pactor:///LA1B", url "pactor" "LA1B" []);
      ("varahf:///LA1B", url "varahf" "LA1B" []);
      ("telnet://LA1B@host:8772", url "telnet" "LA1B" []);
      ("telnet://LA1B@host:8772?freq=7100", url "telnet" "LA1B" [("freq", ["7100"])]);
      ("telnet://LA1B@host:8772?radio_only=true", url "telnet" "LA1B" [("radio_only", ["true"])]) ].

Definition step (e : Event) (w : World) : World :=
  match e with
  | EvArdopOpenTCP _ _ _ _ | EvPactorOpenModem _ _ _ _ _ _ _ | EvVaraNewModem _ _ _ _ =>
      mkWorld (S (next_handle w)) (rig_freq w) (busy_polls w)
  | EvRigSetFreq _ f None => mkWorld (next_handle w) f (busy_polls w)
  | EvArdopBusy _ _ => mkWorld (next_handle w) (rig_freq w) (pred (busy_polls w))
  | _ => w
  end.

Definition external (sc : Scenario) : External World :=
  {| ParseURL s := match known_urls !! s with
                   | Some u => inl u
                   | None => inr (ErrNew "malformed connect string")
                   end;
     VFOForTransport _ := mkVFOLookup 0%nat "rig" (rig_loaded sc) None;
     parseFreq s := if decide (s = "7100") then inl 7100000 else inr (ErrNew "invalid syntax");
     ans_Ping _ _ := ping_reply sc;
     ans_OpenTCP _ _ _ w := OpenOk (next_handle w);
     ans_SetARQBandwidth _ _ _ := None;
     ans_SetCWID _ _ _ := None;
     ans_Version _ _ := ("1.0", None);
     ans_Busy _ w := negb (Nat.eqb (busy_polls w) 0);
     ans_OpenModem _ _ _ _ _ w := (Some (next_handle w), None);
     ans_NewModem _ _ _ w := OpenOk (next_handle w);
     ans_GetFreq _ w := (rig_freq w, None);
     ans_SetFreq _ _ _ := None;
     ans_Dial _ _ _ := dial_reply sc;
     ans_exchange _ _ _ := exchange_reply sc;
     observe := step |}.

Definition config (mycall : string) (radio_only ignore_busy : bool) : Config :=
  {| ConnectAliases := list_to_map [("home", "telnet://LA1B@host:8772"); ("bad", "no scheme");
                                    ("loop", "loop")];
     Locator := "JP20qe";
     Ardop := ArdopConfig.mk "localhost:8515" (Bandwidth.mk false 0) false false "";
     Pactor := PactorConfig.mk "/dev/ttyUSB0" 57600 "";
     VaraHF := VaraConfig.mk "localhost" 8300 8301 false "";
     VaraFM := VaraConfig.mk "localhost" 8300 8301 false "";
     AX25_Port := "wl2k";
     SerialTNC := SerialTNCConfig.mk "/dev/ttyUSB1" 1200 9600;
     MyCall := mycall;
     RadioOnly := radio_only;
     IgnoreBusy := ignore_busy;
     rigs := ∅ |}.

(** The package state at program start. *)
Definition init (freq : Z) (busy : nat) : State World :=
  mkState None None None None None FnNoop 0 [] (mkWorld 1 freq busy) [].

Definition success : Scenario := mkScenario true None (DialReturned (Some 7%nat) None) None.
Definition no_rig : Scenario := mkScenario false None (DialReturned (Some 7%nat) None) None.
Definition cancelled : Scenario := mkScenario true None (DialCancelledInFlight []) None.

End Lab.

(** ** Vocabulary of the properties *)

(** Events by kind. *)
Inductive Kind : Type :=
| KDebug | KLog | KSleep | KStatus | KEventLog
| KModemProbe | KModemOpen | KModemClose | KModemSetup
| KBusyPoll | KRigRead | KRigTune | KRevertLog
| KCancel | KDial | KExchange.

#[global] Instance Kind_eq_dec : EqDecision Kind.
Proof. solve_decision. Defined.

Definition kind (e : Event) : Kind :=
  match e with
  | EvDebug _ => KDebug
  | EvLog (LogQSX _ _) => KRevertLog
  | EvLog _ => KLog
  | EvSleep _ => KSleep
  | EvUpdateStatus => KStatus
  | EvLogConn _ _ _ _ => KEventLog
  | EvArdopPing _ _ => KModemProbe
  | EvArdopOpenTCP _ _ _ _ | EvPactorOpenModem _ _ _ _ _ _ _ | EvVaraNewModem _ _ _ _ =>
      KModemOpen
  | EvArdopClose _ | EvPactorClose _ | EvVaraClose _ => KModemClose
  | EvRegisterDialer _ _ | EvArdopSetARQBandwidth _ _ _ | EvArdopSetCWID _ _ _
  | EvArdopVersion _ _ _ | EvArdopSetPTT _ _ | EvVaraSetPTT _ _ => KModemSetup
  | EvArdopBusy _ _ => KBusyPoll
  | EvRigGetFreq _ _ _ => KRigRead
  | EvRigSetFreq _ _ _ => KRigTune
  | EvContextCancel _ => KCancel
  | EvDial _ _ _ => KDial
  | EvExchange _ _ _ => KExchange
  end.

(** All events of [es] are of one of the kinds [ks]. *)
Definition only (ks : list Kind) (es : list Event) : bool :=
  forallb (fun e => bool_decide (kind e ∈ ks)) es.

(** No event of [es] is of one of the kinds [ks]. *)
Definition none_of (ks : list Kind) (es : list Event) : bool :=
  forallb (fun e => negb (bool_decide (kind e ∈ ks))) es.

(** What can happen before the QSY: debug and log lines and the calls of
    the modem-initialisation routines. *)
Definition prologue_kinds : list Kind :=
  [KDebug; KLog; KModemProbe; KModemOpen; KModemClose; KModemSetup].

(** What can happen between the QSY and the return statement. *)
Definition dial_kinds : list Kind :=
  [KRigRead; KBusyPoll; KLog; KSleep; KStatus; KDial; KCancel; KEventLog; KExchange].

(** What the deferred calls can do. *)
Definition deferred_kinds : list Kind :=
  [KCancel; KSleep; KRevertLog; KRigTune; KStatus].

(** The error of [qsy] when no rig is loaded under [rigName]. *)
Definition rig_not_loaded (rigName : string) : error :=
  ErrNew ("hamlib rig '" +:+ rigName +:+ "' not loaded").

Section Vocabulary.
Context {W : Type}.
Variable X : External W.
Variable config : Config.

(** The world after a run of events. *)
Definition world_after (es : list Event) (w : W) : W :=
foldl (fun w e => observe X e w) w es.

(** Recording a run of events, one after the other. *)
Definition emits (es : list Event) (st : State W) : State W :=
foldl (fun st e => run (emit X e) st) st es.

(** [resolves n s t]: following [n] aliases leads from the connect
  string [s] to the descriptor [t], which is not an alias. *)
Inductive resolves : nat → string → string → Prop :=
| resolves_here s :
  s ≠ "" → ConnectAliases config !! s = None → resolves 0 s s
| resolves_alias n s aliased t :
  s ≠ "" → ConnectAliases config !! s = Some aliased →
  resolves n aliased t → resolves (S n) s t.

(** [all_fail fuel l st st']: calling [Connect] on the candidates of
  [l] one after the other, starting in [st], returns [false] every
  time and ends in [st']. *)
Inductive all_fail (fuel : nat) : list string → State W → State W → Prop :=
| all_fail_nil st : all_fail fuel [] st st
| all_fail_cons s l st st1 st2 :
  Connect X config fuel s st = Some (Returned false, st1) →
  all_fail fuel l st1 st2 →
  all_fail fuel (s :: l) st st2.

(** The events of [n] rounds of the loop of [waitBusy] in which the
  channel was busy. *)
Fixpoint busy_rounds (b : Handle) (printed : bool) (n : nat) : list Event :=
match n with
| O => []
| S n' =>
    EvArdopBusy b true
      :: (if printed then [] else [EvLog LogWaitingClear])
      ++ EvSleep 300 :: busy_rounds b true n'
end.

(** The busy-channel gate lets a dial of [url] through within [fuel]
  polls when entered in state [st]. *)
Definition gate_opens (fuel : nat) (url : URL) (st : State W) : bool :=
if decide (Scheme url = MethodArdop) then
  match adTNC st with
  | Some b => bool_decide (is_Some (waitBusy X config fuel b st))
  | None => true
  end
else true.

(** The events of cancelling the context [ctx] in state [st]. *)
Definition cancel_events (ctx : nat) (st : State W) : list Event :=
if bool_decide (ctx ∈ ctx_cancelled st) then [] else [EvContextCancel ctx].

(** The error that [qsy] reports when the rig lookup for [method] does
  not come back with a loaded rig. *)
Definition qsy_lookup_error (method : string) : error :=
match vfo_err (VFOForTransport X method) with
| Some err => err
| None => rig_not_loaded (vfo_rigName (VFOForTransport X method))
end.

(** C5 as the spec states it, for the connect string [s] in state [st]:
  with radio-only mode in effect and an SSID in the station callsign,
  [Connect] returns [false], opens or initialises no modem and issues no
  dial. *)
Definition radio_only_contacts_nothing (fuel : nat) (s : string) (st : State W) : Prop :=
∀ url,
  ParseURL X s = inl url →
  radioOnly config url = true →
  hasSSID (MyCall config) = true →
  ∃ st' es,
    Connect X config fuel s st = Some (Returned false, st')
    ∧ trace st' = trace st ++ es
    ∧ none_of [KModemProbe; KModemOpen; KModemClose; KModemSetup; KDial] es = true.

(** C3 as the spec states it, for the PACTOR modem, which has no
  liveness probe: with a non-nil handle, initialising again neither
  opens nor closes a handle. *)
Definition pactor_reuse_is_idempotent (cmdlineinit : string) (st : State W) : Prop :=
∀ h,
  pModem st = Some h →
  ∃ es,
    trace (run (initPactorModem X config cmdlineinit) st) = trace st ++ es
    ∧ none_of [KModemOpen; KModemClose] es = true.

End Vocabulary.

Arguments resolves config n s t.

(** ** Runs in the lab *)

Module Runs.

(** The state in which a call of [Connect] leaves the lab (the state it
  started in if the call does not come back within [fuel]). *)
Definition after (sc : Lab.Scenario) (config : Config) (fuel : nat) (s : string)
(st : State Lab.World) : State Lab.World :=
match Connect (Lab.external sc) config fuel s st with
| Some (_, st') => st'
| None => st
end.

Definition plain : Config := Lab.config "LA5NTA" false false.
Definition impatient : Config := Lab.config "LA5NTA" false true.
Definition radio_only_ssid : Config := Lab.config "LA5NTA-1" true false.

(** The lab at program start: rig on 14.1 MHz, channel clear. *)
Definition start : State Lab.World := Lab.init 14100000 0.

(** The same with a channel that stays busy for two more polls. *)
Definition start_busy : State Lab.World := Lab.init 14100000 2.

(** After the alias "bad" failed to parse. *)
Definition after_bad : State Lab.World := after Lab.success plain 5 "bad" start.

(** After the alias "home" then dialled successfully. *)
Definition after_home : State Lab.World := after Lab.success plain 5 "home" after_bad.

(** After one, and after two, successful VARA HF sessions. *)
Definition after_vara1 : State Lab.World := after Lab.success plain 5 "varahf:///LA1B" start.
Definition after_vara2 : State Lab.World :=
after Lab.success plain 5 "varahf:///LA1B" after_vara1.

(** After a successful PACTOR session. *)
Definition after_pactor : State Lab.World := after Lab.success plain 5 "pactor:///LA1B" start.

(** After a successful ARDOP session. *)
Definition after_ardop : State Lab.World := after Lab.success plain 5 "ardop:///LA1B" start.

(** A world in which the ARDOP TNC no longer answers the ping. *)
Definition tnc_gone : Lab.Scenario :=
Lab.mkScenario true (Some (ErrNew "ping timeout")) (DialReturned (Some 7%nat) None) None.

(** The opening and closing of modem handles in a trace. *)
Definition lifecycle (es : list Event) : list Event :=
filter (fun e => kind e ∈ [KModemOpen; KModemClose]) es.

Definition telnet_url : URL :=
mkURL "telnet" "" (Some (mkUserinfo "LA5NTA" None)) "LA1B" [] ∅.

Definition ardop_freq_url : URL :=
mkURL "ardop" "" (Some (mkUserinfo "LA5NTA" None)) "LA1B" []
      (list_to_map [("freq", ["7100"])]).

(** The lab just before the dial of "home" (a telnet descriptor). *)
Definition before_dial : State Lab.World :=
emits (Lab.external Lab.cancelled)
  [EvDebug "telnet://LA1B@host:8772"; EvRigGetFreq 0%nat 14100000 None] start.

(** The lab after the prologue of an ARDOP call with a [freq] parameter,
  and after its QSY. *)
Definition ardop_ready : State Lab.World :=
snd (connectPrologue (Lab.external Lab.success) plain "ardop:///LA1B?freq=7100" [] start_busy).

Definition ardop_tuned : State Lab.World :=
snd (qsy (Lab.external Lab.success) "ardop" "7100" ardop_ready).

End Runs.

(** ** Vocabulary of the further properties *)

(** The kinds of the calls into a modem library. *)
Definition modem_kinds : list Kind :=
  [KModemProbe; KModemOpen; KModemClose; KModemSetup].

(** The schemes for which [Connect] initialises a modem. *)
Definition has_modem (scheme : string) : bool :=
  bool_decide (scheme ∈ [MethodArdop; MethodPactor; MethodVaraHF; MethodVaraFM]).

(** The events of a dial that returned a connection and of the exchange
    that went through on it. *)
Definition session_events (ctx : nat) (connectStr : string) (url : URL) (currFreq : Z)
  (conn : option Conn) : list Event :=
  [EvUpdateStatus; EvLog (LogConnecting (Target url) (Scheme url));
   EvDial ctx url (DialReturned conn None); EvUpdateStatus;
   EvLogConn ("connect " +:+ connectStr) currFreq conn None;
   EvExchange conn (Target url) None; EvLog LogDisconnected].

(** The descriptor that [Connect] hands to the dialer: the parsed one,
    completed with the defaults and, under radio-only mode, with the
    "-T" suffix on the user name. *)
Definition dialled_descriptor (config : Config) (url : URL) : URL :=
  let url := applyDefaults config url in
  if radioOnly config url then SetUser (Username (User url) +:+ "-T") url else url.

(** The result of the last [ardop.OpenTCP] among the events [es]. *)
Definition last_ardop_open (es : list Event) : option OpenResult :=
  foldl (fun acc e => match e with
                      | EvArdopOpenTCP _ _ _ r => Some r
                      | _ => acc
                      end) None es.

(** The handles registered as dialer for [scheme] among the events [es]. *)
Definition registered (scheme : string) (es : list Event) : list Handle :=
  omap (fun e => match e with
                 | EvRegisterDialer s h => if decide (s = scheme) then Some h else None
                 | _ => None
                 end) es.

(** The modem command line that [Connect] builds from the [init]
    parameters of a pactor descriptor. *)
Definition ptCmdInit (url : URL) : string :=
  match Params url !! "init" with
  | Some val => strings_Join val newline
  | None => ""
  end.

Section Sessions.
Context {W : Type}.
Variable config : Config.

(** No dial is in flight: [dialing] is nil, every context created so far
    has been cancelled, and the cancellation hook is either the initial
    no-op or belongs to one of those contexts. *)
Definition idle (st : State W) : Prop :=
  dialing st = None
  ∧ (∀ k, (k < ctx_count st)%nat → k ∈ ctx_cancelled st)
  ∧ (dialCancelFunc st = FnNoop
     ∨ ∃ k, (k < ctx_count st)%nat ∧ dialCancelFunc st = FnCancelDial k).

(** The package variables agree in [st] and [st']; only the world and
    the trace may differ. *)
Definition same_globals (st st' : State W) : Prop :=
  dialing st' = dialing st ∧ adTNC st' = adTNC st ∧ pModem st' = pModem st
  ∧ varaHFModem st' = varaHFModem st ∧ varaFMModem st' = varaFMModem st
  ∧ dialCancelFunc st' = dialCancelFunc st
  ∧ ctx_count st' = ctx_count st ∧ ctx_cancelled st' = ctx_cancelled st.

(** [alias_path s t]: one or more alias lookups lead from [s] to [t]. *)
Inductive alias_path : string → string → Prop :=
| alias_one s aliased :
    s ≠ "" → ConnectAliases config !! s = Some aliased → alias_path s aliased
| alias_more s aliased t :
    s ≠ "" → ConnectAliases config !! s = Some aliased →
    alias_path aliased t → alias_path s t.

End Sessions.

Arguments alias_path config s t.
Arguments same_globals {W} st st'.
Arguments idle {W} st.

(** ** eHaW message queue (ehaw_compose.go)

    The functions of ehaw_compose.go that work on message identifiers
    and paths.  What they read from the file system is an argument. *)

Module Ehaw.

(** [getMsgIds]: the map [mb] is a [map[string]struct{}]. *)
Definition getMsgIds (before after : list string) : list string :=
  let mb : gmap string () := foldl (fun mb x => <[x := ()]> mb) ∅ before in
  foldl (fun newMsgId x =>
           match mb !! x with
           | Some _ => newMsgId
           | None => newMsgId ++ [x]
           end) [] after.

(** Membership of a byte in an ASCII cutset. *)
Definition in_cutset (cutset : string) (c : Ascii.ascii) : bool :=
  existsb (Ascii.eqb c) (String.list_ascii_of_string cutset).

Fixpoint trimLeft (cutset s : string) : string :=
  match s with
  | EmptyString => EmptyString
  | String c s' => if in_cutset cutset c then trimLeft cutset s' else s
  end.

Fixpoint trimRight (cutset s : string) : string :=
  match s with
  | EmptyString => EmptyString
  | String c s' =>
      match trimRight cutset s' with
      | EmptyString => if in_cutset cutset c then EmptyString else String c EmptyString
      | t => String c t
      end
  end.

(** [bytes.Trim(s, cutset)] for a cutset of ASCII bytes: every leading
    and every trailing byte that occurs in the cutset is removed. *)
Definition bytes_Trim (s cutset : string) : string :=
  trimLeft cutset (trimRight cutset s).

(** [(len(name) > 4) && (name[len(name)-4:] == ".b2f")] *)
Definition has_b2f_extension (name : string) : bool :=
  (4 <? String.length name)%nat
  && String.eqb (String.substring (String.length name - 4) 4 name) ".b2f".

(** What [os.Open] and [Readdirnames] give for a directory. *)
Inductive DirResult : Type :=
| OpenFailed (err : error)
| Listed (names : list string) (err : option error).

Definition backslash : string := String (Ascii.ascii_of_nat 92) EmptyString.

(** [getMsgBoxList]: the message identifiers, the error, and the lines
    printed on standard output. *)
Definition getMsgBoxList (fs : string → DirResult) (MailboxPath MyCall msgBox : string)
  : list string * option error * list string :=
  let msgBoxPath := MailboxPath +:+ backslash +:+ MyCall +:+ backslash +:+ msgBox in
  match fs msgBoxPath with
  | OpenFailed err => ([], Some err, ["out folder not found"])
  | Listed _ (Some err) => ([], Some err, [])
  | Listed msgBoxFiles None =>
      (foldl (fun oMsgs name =>
                if has_b2f_extension name
                then oMsgs ++ [bytes_Trim name ".b2f"]
                else oMsgs) [] msgBoxFiles,
       None, [])
  end.

Record ehawConfig : Type := mkEhawConfig {
  Mysql_user : string;
  Mysql_password : string;
  Mysql_host : string;
  Mysql_database : string
}.

(** [getEhawCfg]: the error returned and the new value of the package
    variable [ehawCfg]; [None] is the run-time panic of a slice
    expression with a negative bound.  [ReadFile] is [os.ReadFile] and
    [Unmarshal] is [json.Unmarshal] into a [map[string]ehawConfig]. *)
Definition getEhawCfg (ReadFile : string → string + error)
  (Unmarshal : string → gmap string ehawConfig * option error)
  (ConfigPath : string) (ehawCfg : ehawConfig) : option (option error * ehawConfig) :=
  if (String.length ConfigPath <? String.length "config.json")%nat then None
  else
    let basePathLen := (String.length ConfigPath - String.length "config.json")%nat in
    let cfgPath := String.substring 0 basePathLen ConfigPath +:+ "eHaW_config.json" in
    match ReadFile cfgPath with
    | inr err => Some (Some err, ehawCfg)
    | inl data =>
        match Unmarshal data with
        | (_, Some err) => Some (Some err, ehawCfg)
        | (eCfg, None) =>
            Some (None, default (mkEhawConfig "" "" "" "") (eCfg !! "eHaW"))
        end
    end.

Fixpoint last_byte (s : string) : option Ascii.ascii :=
  match s with
  | EmptyString => None
  | String c EmptyString => Some c
  | String _ s' => last_byte s'
  end.

Definition first_byte (s : string) : option Ascii.ascii :=
  match s with
  | EmptyString => None
  | String c _ => Some c
  end.

(** A message identifier that [bytes.Trim] with the cutset ".b2f" leaves
    alone: not empty, and neither its first nor its last byte is one of
    '.', 'b', '2', 'f'. *)
Definition clean_stem (stem : string) : bool :=
  match first_byte stem, last_byte stem with
  | Some c, Some d => negb (in_cutset ".b2f" c) && negb (in_cutset ".b2f" d)
  | _, _ => false
  end.

(** [strings.Split(s, sep)] for a separator [sep] of one byte: the
    pieces of [s] between the separators, empty pieces included. *)
Fixpoint strings_Split (s : string) (sep : Ascii.ascii) : list string :=
  match s with
  | EmptyString => [EmptyString]
  | String c s' =>
      if Ascii.eqb c sep then EmptyString :: strings_Split s' sep
      else match strings_Split s' sep with
           | [] => [String c EmptyString]
           | piece :: pieces => String c piece :: pieces
           end
  end.

Definition semicolon : Ascii.ascii := Ascii.ascii_of_nat 59.

(** The calls that [ehawComposeMessage] makes on the message it builds
    and hands to [postMessage]. *)
Inductive MsgCall : Type :=
| CallNewMessage (mycall : string)       (* fbb.NewMessage(fbb.Private, mycall) *)
| CallSetFrom (addr : string)
| CallAddTo (addr : string)
| CallSetSubject (subject : string)
| CallSetBody (body : string)
| CallPostMessage.

(** [ehawComposeMessage]: the calls made, in order, and the value
    returned, which is the package variable [err]; [postMessage] is what
    the call of that name does to the variable. *)
Definition ehawComposeMessage (MyCall : string) (postMessage : option error → option error)
  (subject recipients body : string) (err : option error) : list MsgCall * option error :=
  let r := strings_Split recipients semicolon in
  ([CallNewMessage MyCall; CallSetFrom MyCall]
     ++ foldl (fun calls to => calls ++ [CallAddTo to]) [] r
     ++ [CallSetSubject subject; CallSetBody body; CallPostMessage],
   postMessage err).

(** The number of bytes [c] in [s]. *)
Definition count_byte (c : Ascii.ascii) (s : string) : nat :=
  length (filter (fun a => a = c) (String.list_ascii_of_string s)).

End Ehaw.

(** ** More runs in the lab *)

Module Trials.

(** The collaborators [x] with another connect-string parser. *)
Definition with_parser {W : Type} (parse : string → URL + error) (x : External W)
  : External W :=
  {| ParseURL := parse;
     VFOForTransport := VFOForTransport x;
     parseFreq := parseFreq x;
     ans_Ping := ans_Ping x;
     ans_OpenTCP := ans_OpenTCP x;
     ans_SetARQBandwidth := ans_SetARQBandwidth x;
     ans_SetCWID := ans_SetCWID x;
     ans_Version := ans_Version x;
     ans_Busy := ans_Busy x;
     ans_OpenModem := ans_OpenModem x;
     ans_NewModem := ans_NewModem x;
     ans_GetFreq := ans_GetFreq x;
     ans_SetFreq := ans_SetFreq x;
     ans_Dial := ans_Dial x;
     ans_exchange := ans_exchange x;
     observe := observe x |}.

(** The collaborators [x] with a channel that is busy at every poll. *)
Definition with_jammed_channel {W : Type} (x : External W) : External W :=
  {| ParseURL := ParseURL x;
     VFOForTransport := VFOForTransport x;
     parseFreq := parseFreq x;
     ans_Ping := ans_Ping x;
     ans_OpenTCP := ans_OpenTCP x;
     ans_SetARQBandwidth := ans_SetARQBandwidth x;
     ans_SetCWID := ans_SetCWID x;
     ans_Version := ans_Version x;
     ans_Busy := fun _ _ => true;
     ans_OpenModem := ans_OpenModem x;
     ans_NewModem := ans_NewModem x;
     ans_GetFreq := ans_GetFreq x;
     ans_SetFreq := ans_SetFreq x;
     ans_Dial := ans_Dial x;
     ans_exchange := ans_exchange x;
     observe := observe x |}.

Definition jammed : External Lab.World := with_jammed_channel (Lab.external Lab.success).

(** A parser that knows one packet-radio descriptor. *)
Definition packet_parser (s : string) : URL + error :=
  if decide (s = "ax25:///LA1B?radio_only=true")
  then inl (Lab.url "ax25" "LA1B" [("radio_only", ["true"])])
  else inr (ErrNew "malformed connect string").

Definition packet : External Lab.World := with_parser packet_parser (Lab.external Lab.success).

(** The plain configuration with PTT control through a rig that is not
    loaded. *)
Definition ptt_without_rig : Config :=
  {| ConnectAliases := ConnectAliases Runs.plain;
     Locator := Locator Runs.plain;
     Ardop := ArdopConfig.mk "localhost:8515" (Bandwidth.mk false 0) false true "ic7300";
     Pactor := Pactor Runs.plain;
     VaraHF := VaraHF Runs.plain;
     VaraFM := VaraFM Runs.plain;
     AX25_Port := AX25_Port Runs.plain;
     SerialTNC := SerialTNC Runs.plain;
     MyCall := MyCall Runs.plain;
     RadioOnly := RadioOnly Runs.plain;
     IgnoreBusy := IgnoreBusy Runs.plain;
     rigs := rigs Runs.plain |}.

Definition telnet_freq_url : URL :=
  mkURL "telnet" "" (Some (mkUserinfo "LA5NTA" None)) "LA1B" []
        (list_to_map [("freq", ["7100"])]).

(** A message folder with three messages and a stray file. *)
Definition out_folder (path : string) : Ehaw.DirResult :=
  Ehaw.Listed ["A1B2C3D4E5F6.b2f"; "notes.txt"; "Q7W8E9R0T1Y3.b2f"; "ZZ00ZZ00ZZ2.b2f"] None.

Definition tidy_folder (path : string) : Ehaw.DirResult :=
  Ehaw.Listed (map (fun mid => mid +:+ ".b2f") ["A1B2C3D4E5F6"; "Q7W8E9R0T1Y3"]) None.

Definition no_file (path : string) : string + error := inr (ErrNew ("open " +:+ path)).

Definition empty_json (path : string) : string + error := inl "{}".

Definition parsed_json (data : string) : gmap string Ehaw.ehawConfig * option error :=
  (∅, None).

End Trials.

(** ** Proofs *)

(** Normalise a trace equation [trace st' = trace st ++ ?es]. *)
Ltac trace_eq :=
  simpl; rewrite <- ?app_assoc; first [reflexivity | symmetry; apply app_nil_r].

(** Case analysis on the innermost scrutinee of the goal. *)
Ltac branch :=
  match goal with
  | |- context [if bool_decide ?P then _ else _] => destruct (bool_decide P) eqn:?
  | |- context [match ?x with _ => _ end] =>
      lazymatch x with
      | context [match _ with _ => _ end] => fail
      | _ => destruct x eqn:?
      end
  end.

Ltac unfold_monad :=
  unfold bbind, bret, lift, defer, exit, bind, ret, gets, ask, run,
    log_Print, time_Sleep, UpdateStatus, emit in *.

Ltac unfold_modems :=
  unfold initArdopTNC, initPactorModem, initVaraModem,
    TNC_Ping, TNC_Close, ardop_OpenTCP, TNC_SetARQBandwidth, TNC_SetCWID, TNC_Version,
    TNC_SetPTT, RegisterDialer, set_adTNC, set_pModem,
    pactor_Close, pactor_OpenModem, vara_Close, vara_NewModem, vara_SetPTT in *.

Section Properties.
Context {W : Type}.
Variable X : External W.
Variable config : Config.

(** *** Traces *)

Lemma emits_app es1 es2 (st : State W) :
emits X (es1 ++ es2) st = emits X es2 (emits X es1 st).
Proof. apply foldl_app. Qed.

Lemma trace_emits es (st : State W) : trace (emits X es st) = trace st ++ es.
Proof.
revert st. induction es as [|e es IH]; intros st; simpl.
- by rewrite app_nil_r.
- rewrite IH. simpl. by rewrite <- app_assoc.
Qed.

Lemma world_emits es (st : State W) :
world (emits X es st) = world_after X es (world st).
Proof.
revert st. induction es as [|e es IH]; intros st; simpl; [done|].
by rewrite IH.
Qed.

(** Events never touch the package variables. *)
Lemma globals_emits es (st : State W) :
dialing (emits X es st) = dialing st ∧ adTNC (emits X es st) = adTNC st ∧
pModem (emits X es st) = pModem st ∧ varaHFModem (emits X es st) = varaHFModem st ∧
varaFMModem (emits X es st) = varaFMModem st ∧
dialCancelFunc (emits X es st) = dialCancelFunc st ∧
ctx_count (emits X es st) = ctx_count st ∧
ctx_cancelled (emits X es st) = ctx_cancelled st.
Proof.
revert st. induction es as [|e es IH]; intros st; simpl; [done|].
destruct (IH (run (emit X e) st)) as (-> & -> & -> & -> & -> & -> & -> & ->). done.
Qed.

Lemma only_app ks es1 es2 : only ks (es1 ++ es2) = only ks es1 && only ks es2.
Proof. apply forallb_app. Qed.

(** *** Aliases *)

Lemma Connect_resolves n s t :
resolves config n s t →
∀ fuel (st : State W),
  Connect X config (n + S fuel) s st = leave X (connectBody X config fuel t [] st).
Proof.
induction 1 as [s Hne Hno | n s a t Hne Ha _ IH]; intros fuel st; simpl.
- rewrite decide_False by done. by rewrite Hno.
- rewrite decide_False by done. rewrite Ha. apply IH.
Qed.

(** *** Defaults keep the scheme and the parameters that [Connect] reads *)

Lemma Values_Get_Set_ne (v : Values) k k' x :
k ≠ k' → Values_Get (Values_Set v k x) k' = Values_Get v k'.
Proof. intros Hne. unfold Values_Get, Values_Set. by rewrite lookup_insert_ne. Qed.

Lemma applyDefaults_Scheme url : Scheme (applyDefaults config url) = Scheme url.
Proof. unfold applyDefaults. repeat (branch; simpl); reflexivity. Qed.

Lemma applyDefaults_Get url key :
key ≠ "hbaud" → key ≠ "serial_baud" →
Values_Get (Params (applyDefaults config url)) key = Values_Get (Params url) key.
Proof.
intros H1 H2. unfold applyDefaults.
repeat (branch; simpl); rewrite ?Values_Get_Set_ne by done; reflexivity.
Qed.

Lemma radioOnly_applyDefaults url :
radioOnly config (applyDefaults config url) = radioOnly config url.
Proof. unfold radioOnly. by rewrite applyDefaults_Get. Qed.

(** *** The prologue *)

Lemma connectPrologue_spec t (st : State W) :
∃ r st' es,
  connectPrologue X config t [] st = (r, [FnStatusHack], st')
  ∧ trace st' = trace st ++ EvDebug t :: es
  ∧ only prologue_kinds es = true
  ∧ match r with
    | inl url' =>
        ∃ url, ParseURL X t = inl url
               ∧ Scheme url' = Scheme url
               ∧ Params url' = Params (applyDefaults config url)
               ∧ ¬ (radioOnly config url = true ∧ hasSSID (MyCall config) = true)
    | inr x =>
        x = ExReturn false
        ∧ ∃ m, last es = Some (EvLog m)
    end.
Proof.
unfold connectPrologue, initTNCs, init_or_return, applyRadioOnly.
unfold_modems. unfold_monad. simpl.
repeat (branch; simpl).
all: eexists _, _, _; split; [reflexivity|]; split; [trace_eq|]; split; [reflexivity|].
all: try (split; [reflexivity|]; eexists; reflexivity).
all: eexists; split; [reflexivity|]; split; [simpl; apply applyDefaults_Scheme|];
  split; [reflexivity|].
all: intros [Hr ?]; rewrite <- radioOnly_applyDefaults in Hr; congruence.
Qed.

(** *** qsy *)

Lemma qsy_success method addr (st st1 : State W) revert :
qsy X method addr st = ((revert, None), st1) →
let rig := vfo_rig (VFOForTransport X method) in
let oldFreq := fst (ans_GetFreq X rig (world_after X [EvLog (LogQSY method addr)] (world st))) in
∃ newFreq,
  revert = FnRevert method rig oldFreq
  ∧ st1 = emits X [EvLog (LogQSY method addr); EvRigGetFreq rig oldFreq None;
                   EvRigSetFreq rig newFreq None; EvSleep 3000] st.
Proof.
unfold qsy, setFreq, VFO_GetFreq, VFO_SetFreq. unfold_monad. simpl.
repeat (branch; simpl); intros [= <- <-].
eexists. split; [reflexivity|].
unfold emits. simpl. unfold_monad. simpl.
repeat match goal with H : _ = _ |- _ => rewrite H; clear H end.
reflexivity.
Qed.

(** Without a loaded rig [qsy] fails before it does anything. *)
Lemma qsy_not_loaded method addr (st : State W) :
vfo_ok (VFOForTransport X method) = false →
qsy X method addr st = ((FnNoop, Some (qsy_lookup_error X method)), st).
Proof.
intros Hok. unfold qsy, qsy_lookup_error, rig_not_loaded. unfold_monad.
destruct (vfo_err (VFOForTransport X method)); [done|].
by rewrite Hok.
Qed.

(** *** The frequency snapshot and the busy-channel gate *)

Lemma snapshotFreq_spec url (st : State W) :
∃ f es, snapshotFreq X url st = (f, emits X es st) ∧ only [KRigRead] es = true.
Proof.
unfold snapshotFreq, VFO_GetFreq. unfold_monad.
destruct (vfo_ok _).
- destruct (ans_GetFreq _ _ _) as [f e] eqn:E.
  exists f, [EvRigGetFreq (vfo_rig (VFOForTransport X (Scheme url))) f e].
  split; [|done]. unfold emits. simpl. unfold_monad. by simpl.
- by exists 0, [].
Qed.

Lemma waitBusy_loop_emits b fuel :
∀ printed (st st' : State W),
  waitBusy_loop X config fuel b printed st = Some st' →
  ∃ es, st' = emits X es st ∧ only [KBusyPoll; KLog; KSleep] es = true.
Proof.
induction fuel as [|fuel IH]; intros printed st st'; [done|].
cbn [waitBusy_loop]. unfold TNC_Busy, ask.
destruct (ans_Busy X b (world st)) eqn:Hb.
- destruct (negb printed && IgnoreBusy config) eqn:Hp.
  + intros [= <-]. by exists [EvArdopBusy b true; EvLog LogIgnoringBusy].
  + intros Hloop. apply IH in Hloop as (es & -> & Hes).
    destruct printed.
    * exists ([EvArdopBusy b true; EvSleep 300] ++ es).
      rewrite emits_app, only_app, Hes. done.
    * exists ([EvArdopBusy b true; EvLog LogWaitingClear; EvSleep 300] ++ es).
      rewrite emits_app, only_app, Hes. done.
- intros [= <-]. by exists [EvArdopBusy b false].
Qed.

Lemma waitClearChannel_spec fuel url ds (st : State W) :
gate_opens X config fuel url st = true →
∃ r es,
  waitClearChannel X config fuel url ds st = (r, ds, emits X es st)
  ∧ only [KBusyPoll; KLog; KSleep] es = true
  ∧ (r = inl tt ∨ r = inr ExPanic).
Proof.
unfold gate_opens, waitClearChannel. intros Hgate.
destruct (decide (Scheme url = MethodArdop)); [|by exists (inl tt), []; auto].
destruct (adTNC st) as [b|]; [|by exists (inr ExPanic), []; auto].
apply bool_decide_eq_true in Hgate as [st' Hst'].
rewrite Hst'. apply waitBusy_loop_emits in Hst' as (es & -> & Hes).
exists (inl tt), es. auto.
Qed.

(** *** Deferred calls *)

Lemma call_spec f (st : State W) :
∃ es,
  trace (run (call X f) st) = trace st ++ es
  ∧ only deferred_kinds es = true
  ∧ (dialing st = None → dialing (run (call X f) st) = None).
Proof.
destruct f; unfold call, context_cancel, set_dialing, VFO_SetFreq; unfold_monad; simpl.
all: repeat (branch; simpl).
all: eexists; split; [trace_eq|]; split; [reflexivity|]; done.
Qed.

Lemma run_deferred_spec ds :
∀ st : State W,
  ∃ es,
    trace (run_deferred X ds st) = trace st ++ es
    ∧ only deferred_kinds es = true
    ∧ (dialing st = None → dialing (run_deferred X ds st) = None).
Proof.
induction ds as [|f ds IH]; intros st.
- exists []. unfold run_deferred. simpl. by rewrite app_nil_r.
- change (run_deferred X (f :: ds) st) with (run_deferred X ds (run (call X f) st)).
  destruct (call_spec f st) as (es1 & Ht1 & Hk1 & Hd1).
  destruct (IH (run (call X f) st)) as (es2 & Ht2 & Hk2 & Hd2).
  exists (es1 ++ es2). rewrite Ht2, Ht1, <- app_assoc, only_app, Hk1, Hk2. auto.
Qed.

(** *** The dial *)

Lemma connectDial_spec connectStr url currFreq ds (st : State W) :
∃ r st' es,
  connectDial X connectStr url currFreq ds st = (r, FnCancelDial (ctx_count st) :: ds, st')
  ∧ trace st' = trace st ++ es
  ∧ only dial_kinds es = true
  ∧ dialing st' = None
  ∧ (r = inr (ExReturn false) ∨ ∃ success, r = inl success).
Proof.
unfold connectDial, DialURLContext, context_WithCancel, set_dialCancelFunc, exchange,
  call, context_cancel, set_dialing.
unfold_monad. simpl.
repeat (branch; simpl).
all: eexists _, _, _; split; [reflexivity|]; split; [trace_eq|]; split; [reflexivity|].
all: split; [reflexivity|]; eauto.
Qed.

Lemma only_none_of ks ks' es :
forallb (fun k => negb (bool_decide (k ∈ ks'))) ks = true →
only ks es = true → none_of ks' es = true.
Proof.
unfold only, none_of. rewrite !forallb_forall. intros Hdis H e He.
specialize (H e He). apply bool_decide_eq_true in H.
apply list_elem_of_In in H. exact (Hdis _ H).
Qed.

Lemma none_of_app ks es1 es2 : none_of ks (es1 ++ es2) = none_of ks es1 && none_of ks es2.
Proof. apply forallb_app. Qed.

Lemma is_Canceled_cancellation_error wrapped :
is_Canceled (cancellation_error wrapped) = true.
Proof. induction wrapped; simpl; auto. Qed.

(** Schemes without a modem of their own skip the initialisation. *)
Lemma initTNCs_no_modem url ds (st : State W) :
Scheme url ∉ [MethodArdop; MethodPactor; MethodVaraHF; MethodVaraFM] →
initTNCs X config url ds st = (inl tt, ds, st).
Proof.
intros Hno. unfold initTNCs.
repeat (destruct (decide _) as [Heq|_]; [exfalso; apply Hno; rewrite Heq; set_solver|]).
reflexivity.
Qed.

(** *** waitBusy *)

Lemma busy_rounds_S b printed n :
busy_rounds b printed (S n)
= (EvArdopBusy b true :: (if printed then [] else [EvLog LogWaitingClear]) ++ [EvSleep 300])
    ++ busy_rounds b true n.
Proof. simpl. by rewrite <- app_assoc. Qed.

Lemma waitBusy_loop_clear b n :
∀ printed (st : State W) fuel,
  (printed = true ∨ IgnoreBusy config = false) →
  (∀ i, (i < n)%nat →
        ans_Busy X b (world_after X (busy_rounds b printed i) (world st)) = true) →
  ans_Busy X b (world_after X (busy_rounds b printed n) (world st)) = false →
  waitBusy_loop X config (n + S fuel) b printed st
  = Some (emits X (busy_rounds b printed n ++ [EvArdopBusy b false]) st).
Proof.
induction n as [|n IH]; intros printed st fuel Hmode Hbusy Hclear.
- simpl in *. unfold TNC_Busy, ask. by rewrite Hclear.
- pose proof (Hbusy 0%nat ltac:(lia)) as H0. simpl in H0.
  change (S n + S fuel)%nat with (S (n + S fuel)).
  cbn [waitBusy_loop]. unfold TNC_Busy, ask. rewrite H0.
  assert (negb printed && IgnoreBusy config = false) as ->.
  { destruct Hmode as [-> | ->]; [done | by rewrite andb_false_r]. }
  rewrite busy_rounds_S, <- app_assoc, emits_app.
  set (st1 := emits X _ st).
  assert (run (time_Sleep X 300)
            (if negb printed
             then run (log_Print X LogWaitingClear) (run (emit X (EvArdopBusy b true)) st)
             else run (emit X (EvArdopBusy b true)) st) = st1) as ->.
  { subst st1. by destruct printed. }
  apply IH.
  + by left.
  + intros i Hi. specialize (Hbusy (S i) ltac:(lia)).
    rewrite busy_rounds_S in Hbusy. unfold world_after in *.
    rewrite foldl_app in Hbusy. subst st1. by rewrite world_emits.
  + rewrite busy_rounds_S in Hclear. unfold world_after in *.
    rewrite foldl_app in Hclear. subst st1. by rewrite world_emits.
Qed.

(** *** The claims *)

(** C10. [Connect] called with the empty string returns [false] at
  once and leaves the package state, the world and the trace exactly
  as they were: no alias lookup, no parsing, no modem initialisation,
  no frequency change, no status notification. *)
Theorem Connect_empty_no_effect fuel (st : State W) :
Connect X config (S fuel) "" st = Some (Returned false, st).
Proof. cbn [Connect]. by destruct (decide ("" = "")). Qed.

(** C4. When the descriptor that [Connect] hands to the parser (the
  connect string itself, or the descriptor its aliases lead to) fails
  to parse, [Connect] returns [false]; all it did was print the debug
  line, log the parse error and run the deferred status update.  No
  modem was opened or initialised, no rig was touched, and the
  package variables are unchanged. *)
Theorem Connect_parse_failure n s t e fuel (st : State W) :
resolves config n s t →
ParseURL X t = inr e →
Connect X config (n + S fuel) s st
= Some (Returned false,
        emits X [EvDebug t; EvLog (LogError e); EvSleep 1000; EvUpdateStatus] st).
Proof.
intros Hres Hparse. rewrite (Connect_resolves n s t Hres).
unfold connectBody, connectPrepare, connectPrologue, bbind, defer, lift. simpl.
by rewrite Hparse.
Qed.

(** C8. [connectAny] goes through its candidates in argument order.  At
  the first candidate for which [Connect] returns [true] it returns
  [true] in the very state that call left behind, whatever the later
  candidates are: [Connect] is not invoked on them.  If [Connect]
  returns [false] for every candidate, [connectAny] returns [false]
  after the last one. *)
Theorem connectAny_first_success fuel :
(∀ l1 s l2 (st st1 st2 : State W),
    all_fail X config fuel l1 st st1 →
    Connect X config fuel s st1 = Some (Returned true, st2) →
    connectAny X config fuel (l1 ++ s :: l2) st = Some (Returned true, st2))
∧ (∀ l (st st' : State W),
      all_fail X config fuel l st st' →
      connectAny X config fuel l st = Some (Returned false, st')).
Proof.
split.
- intros l1 s l2 st st1 st2 Hfail Hok.
  induction Hfail as [st | c l st sta stb Hc _ IH]; simpl.
  + by rewrite Hok.
  + rewrite Hc. by apply IH.
- intros l st st' Hfail.
  induction Hfail as [st | c l st sta stb Hc _ IH]; simpl; [done|].
  by rewrite Hc.
Qed.

(** C9. With the ignore-busy option set, [waitBusy] polls the channel
  exactly once and returns, whatever the channel answers now or
  later; if that one poll found the channel busy, this is logged
  once.  With the option not set, if the channel is busy for [n]
  polls and clear at the next one, [waitBusy] returns right after
  that poll, having logged the wait once and slept after each busy
  poll. *)
Theorem waitBusy_gate b fuel (st : State W) :
(IgnoreBusy config = true →
 waitBusy X config (S fuel) b st
 = Some (emits X (EvArdopBusy b (ans_Busy X b (world st))
                    :: (if ans_Busy X b (world st) then [EvLog LogIgnoringBusy] else [])) st))
∧ (IgnoreBusy config = false →
   ∀ n,
     (∀ i, (i < n)%nat →
           ans_Busy X b (world_after X (busy_rounds b false i) (world st)) = true) →
     ans_Busy X b (world_after X (busy_rounds b false n) (world st)) = false →
     waitBusy X config (n + S fuel) b st
     = Some (emits X (busy_rounds b false n ++ [EvArdopBusy b false]) st)).
Proof.
split.
- intros Hig. unfold waitBusy. cbn [waitBusy_loop]. unfold TNC_Busy, ask.
  rewrite Hig. simpl. by destruct (ans_Busy X b (world st)).
- intros Hig n Hbusy Hclear. unfold waitBusy.
  apply waitBusy_loop_clear; auto.
Qed.

(** C7. When the descriptor carries a non-empty [freq] parameter and the
  rig lookup for its scheme does not come back with a loaded rig,
  [Connect] returns [false] and everything it did is of the kinds of
  the prologue (debug and log lines, modem initialisation) plus the
  deferred status update: no dial, no exchange, no rig command.  If
  the prologue got as far as the QSY, the call ends right there with
  the "Unable to QSY" line carrying the lookup error, which is the
  rig-not-loaded error unless the lookup reported an error itself. *)
Theorem Connect_freq_without_rig n s t url fuel (st : State W) :
resolves config n s t →
ParseURL X t = inl url →
Values_Get (Params url) "freq" ≠ "" →
vfo_ok (VFOForTransport X (Scheme url)) = false →
∃ st' es,
  Connect X config (n + S fuel) s st = Some (Returned false, st')
  ∧ trace st' = trace st ++ EvDebug t :: es ++ [EvSleep 1000; EvUpdateStatus]
  ∧ only prologue_kinds es = true
  ∧ (∀ url' ds0 st0,
        connectPrologue X config t [] st = (inl url', ds0, st0) →
        st' = emits X [EvLog (LogUnableToQSY (qsy_lookup_error X (Scheme url)));
                       EvSleep 1000; EvUpdateStatus] st0).
Proof.
intros Hres Hparse Hfreq Hrig. rewrite (Connect_resolves n s t Hres).
destruct (connectPrologue_spec t st) as (r & st0 & es & Hpro & Htr & Hk & Hr).
unfold connectBody, connectPrepare, bbind. rewrite Hpro.
destruct r as [url'|x].
- destruct Hr as (url0 & Hp & Hs & Hpar & _).
  rewrite Hparse in Hp. injection Hp as <-.
  unfold connectQSY. rewrite Hpar, applyDefaults_Get by done.
  rewrite decide_False by done. unfold bbind, lift.
  rewrite Hs, qsy_not_loaded by done. unfold log_Print, emit, exit. cbn [leave].
  eexists _, (es ++ [EvLog (LogUnableToQSY (qsy_lookup_error X (Scheme url)))]).
  split; [reflexivity|]. split; [|split].
  + simpl. rewrite Htr. rewrite <- !app_assoc. reflexivity.
  + rewrite only_app, Hk. reflexivity.
  + intros url'' ds0 st0' [= _ _ <-]. reflexivity.
- destruct Hr as [-> _]. cbn [leave].
  eexists _, es. split; [reflexivity|]. split; [|split; [done|]].
  + simpl. rewrite Htr. rewrite <- !app_assoc. reflexivity.
  + intros url'' ds0 st0' [=].
Qed.

(** C5, amended.  With radio-only mode in effect and an SSID in the
  station callsign, [Connect] returns [false]; what it did before is
  of the kinds of the prologue (debug and log lines and the modem
  initialisation for the scheme, which runs before the radio-only
  check) plus the deferred status update: no dial, no exchange, no rig
  command.  For a scheme without a modem of its own the only thing
  that happens is the radio-only log line. *)
Theorem Connect_radio_only_with_SSID n s t url fuel (st : State W) :
resolves config n s t →
ParseURL X t = inl url →
radioOnly config url = true →
hasSSID (MyCall config) = true →
∃ st' es,
  Connect X config (n + S fuel) s st = Some (Returned false, st')
  ∧ trace st' = trace st ++ EvDebug t :: es ++ [EvSleep 1000; EvUpdateStatus]
  ∧ only prologue_kinds es = true
  ∧ (Scheme url ∉ [MethodArdop; MethodPactor; MethodVaraHF; MethodVaraFM] →
     es = [EvLog LogRadioOnlySSID]).
Proof.
intros Hres Hparse Hradio Hssid. rewrite (Connect_resolves n s t Hres).
destruct (connectPrologue_spec t st) as (r & st0 & es & Hpro & Htr & Hk & Hr).
unfold connectBody, connectPrepare, bbind. rewrite Hpro.
destruct r as [url'|x].
- destruct Hr as (url0 & Hp & _ & _ & Hno).
  rewrite Hparse in Hp. injection Hp as <-. by destruct Hno.
- destruct Hr as [-> _]. cbn [leave].
  eexists _, es. split; [reflexivity|]. split; [|split; [done|]].
  + simpl. rewrite Htr. rewrite <- !app_assoc. reflexivity.
  + intros Hscheme. revert Hpro.
    unfold connectPrologue, bbind, defer, lift, emit. rewrite Hparse.
    rewrite initTNCs_no_modem by done.
    unfold applyRadioOnly. rewrite radioOnly_applyDefaults, Hradio, Hssid.
    unfold bbind, lift, log_Print, emit, exit. intros [= <-].
    simpl in Htr. rewrite <- app_assoc in Htr. apply app_inv_head in Htr.
    by injection Htr as <-.
Qed.

(** C6. When the operator invokes the cancellation hook while the dial
  of a [Connect] call is in flight, that call returns [false]; the
  outcome goes to the event log with the cancellation error and is
  reported with the "Connect cancelled" line, after which only
  deferred calls run (no "Unable to establish connection" line, no
  exchange); and [dialing] is nil when [Connect] has returned. *)
Theorem Connect_cancelled_in_flight n s t fuel (st st1 : State W) url currFreq ds wrapped :
resolves config n s t →
connectPrepare X config fuel t [] st = (inl (url, currFreq), ds, st1) →
ans_Dial X (ctx_count st1) url
  (world_after X [EvUpdateStatus; EvLog (LogConnecting (Target url) (Scheme url))]
     (world st1))
= DialCancelledInFlight wrapped →
∃ st' es,
  Connect X config (n + S fuel) s st = Some (Returned false, st')
  ∧ dialing st' = None
  ∧ trace st'
    = trace st1
        ++ [EvUpdateStatus; EvLog (LogConnecting (Target url) (Scheme url));
            EvDial (ctx_count st1) url (DialCancelledInFlight wrapped)]
        ++ cancel_events (ctx_count st1) st1
        ++ [EvUpdateStatus;
            EvLogConn ("connect " +:+ t) currFreq None (Some (cancellation_error wrapped));
            EvLog LogConnectCancelled]
        ++ es
  ∧ only deferred_kinds es = true.
Proof.
intros Hres Hprep Hdial. rewrite (Connect_resolves n s t Hres).
unfold connectBody, bbind. rewrite Hprep.
unfold connectDial, DialURLContext, context_WithCancel, set_dialCancelFunc, exchange,
  call, context_cancel, set_dialing, cancel_events.
unfold_monad. simpl in *. rewrite Hdial. simpl.
destruct (bool_decide (ctx_count st1 ∈ ctx_cancelled st1)) eqn:Hc; simpl;
  rewrite is_Canceled_cancellation_error; simpl.
all: match goal with
     | |- context [run_deferred X ?l ?s] =>
         destruct (run_deferred_spec l s) as (es & Htr & Hk & Hd)
     end.
all: eexists _, es; split; [reflexivity|]; split; [by apply Hd|]; split; [|done].
all: rewrite Htr; simpl; rewrite <- !app_assoc; reflexivity.
Qed.

(** C1. When the [qsy] call of [Connect] succeeds and the busy-channel
  gate lets the call through, [Connect] comes back to its caller, on
  whatever path, and on the way out the revert obtained from [qsy] has
  run exactly once: after the frequency change there is not a single
  QSX line or rig command until, as the last thing but the status
  update, the revert logs QSX and commands the rig that was retuned
  back to the frequency read just before the change. *)
Theorem Connect_reverts_once n s t fuel (st st0 st1 : State W) url revert :
resolves config n s t →
connectPrologue X config t [] st = (inl url, [FnStatusHack], st0) →
Values_Get (Params url) "freq" ≠ "" →
qsy X (Scheme url) (Values_Get (Params url) "freq") st0 = ((revert, None), st1) →
gate_opens X config fuel url (run (snapshotFreq X url) st1) = true →
let rig := vfo_rig (VFOForTransport X (Scheme url)) in
∃ oldFreq newFreq out st' pre mid r,
  Connect X config (n + S fuel) s st = Some (out, st')
  ∧ revert = FnRevert (Scheme url) rig oldFreq
  ∧ trace st'
    = trace st ++ pre
        ++ [EvLog (LogQSY (Scheme url) (Values_Get (Params url) "freq"));
            EvRigGetFreq rig oldFreq None; EvRigSetFreq rig newFreq None; EvSleep 3000]
        ++ mid
        ++ [EvSleep 1000; EvLog (LogQSX (Scheme url) oldFreq); EvRigSetFreq rig oldFreq r;
            EvSleep 1000; EvUpdateStatus]
  ∧ none_of [KRevertLog; KRigTune] pre = true
  ∧ none_of [KRevertLog; KRigTune] mid = true.
Proof.
intros Hres Hpro Hfreq Hqsy Hgate rig.
destruct (connectPrologue_spec t st) as (r0 & st0' & pre & Hpro' & Htr0 & Hk0 & _).
rewrite Hpro in Hpro'. injection Hpro' as <- <-.
apply (only_none_of _ [KRevertLog; KRigTune]) in Hk0; [|done].
destruct (snapshotFreq_spec url st1) as (f & es1 & Hsnap & Hk1).
apply (only_none_of _ [KRevertLog; KRigTune]) in Hk1; [|done].
unfold run in Hgate. rewrite Hsnap in Hgate. simpl in Hgate.
destruct (waitClearChannel_spec fuel url [revert; FnStatusHack] _ Hgate)
  as (r2 & es2 & Hw & Hk2 & Hr2).
apply (only_none_of _ [KRevertLog; KRigTune]) in Hk2; [|done].
rewrite (Connect_resolves n s t Hres).
unfold connectBody, connectPrepare, bbind. rewrite Hpro.
unfold connectQSY. rewrite decide_False by done.
unfold bbind, lift, defer. rewrite Hqsy, Hsnap, Hw.
pose proof (qsy_success _ _ _ _ _ Hqsy) as (newFreq & Hrev & Hst1).
cbv zeta in Hrev, Hst1. fold rig in Hrev, Hst1.
set (oldFreq := fst (ans_GetFreq X rig _)) in Hrev, Hst1.
assert (trace (emits X es2 (emits X es1 st1))
        = trace st ++ (EvDebug t :: pre)
            ++ [EvLog (LogQSY (Scheme url) (Values_Get (Params url) "freq"));
                EvRigGetFreq rig oldFreq None; EvRigSetFreq rig newFreq None; EvSleep 3000]
            ++ es1 ++ es2) as Htr2.
{ rewrite !trace_emits, Hst1, trace_emits, Htr0. by rewrite <- !app_assoc. }
destruct Hr2 as [-> | ->].
- unfold bret.
  destruct (connectDial_spec t url f [revert; FnStatusHack] (emits X es2 (emits X es1 st1)))
    as (r3 & st3 & es3 & Hd & Htr3 & Hk3 & _ & Hr3).
  apply (only_none_of _ [KRevertLog; KRigTune]) in Hk3; [|done].
  rewrite Hd, Hrev.
  assert (∃ out, leave X (r3, [FnCancelDial (ctx_count (emits X es2 (emits X es1 st1)));
                               FnRevert (Scheme url) rig oldFreq; FnStatusHack], st3)
                 = Some (out, run_deferred X
                                [FnCancelDial (ctx_count (emits X es2 (emits X es1 st1)));
                                 FnRevert (Scheme url) rig oldFreq; FnStatusHack] st3))
    as [out ->].
  { destruct Hr3 as [-> | [b ->]]; simpl; eauto. }
  exists oldFreq, newFreq, out.
  unfold run_deferred, call, context_cancel, set_dialing, VFO_SetFreq. unfold_monad. simpl.
  destruct (bool_decide _); simpl.
  + eexists _, (EvDebug t :: pre), (es1 ++ es2 ++ es3), _.
    split; [reflexivity|]. split; [done|]. split; [|split].
    * rewrite Htr3, Htr2. rewrite <- !app_assoc. reflexivity.
    * done.
    * by rewrite !none_of_app, Hk1, Hk2, Hk3.
  + eexists _, (EvDebug t :: pre), (es1 ++ es2 ++ es3 ++ [EvContextCancel _]), _.
    split; [reflexivity|]. split; [done|]. split; [|split].
    * rewrite Htr3, Htr2. rewrite <- !app_assoc. reflexivity.
    * done.
    * by rewrite !none_of_app, Hk1, Hk2, Hk3.
- cbn [leave]. rewrite Hrev.
  exists oldFreq, newFreq, Panicked.
  unfold run_deferred, call, VFO_SetFreq. unfold_monad. simpl.
  eexists _, (EvDebug t :: pre), (es1 ++ es2), _.
  split; [reflexivity|]. split; [done|]. split; [|split].
  + rewrite Htr2. rewrite <- !app_assoc. reflexivity.
  + done.
  + by rewrite !none_of_app, Hk1, Hk2.
Qed.

(** C3, amended.  Initialising the ARDOP TNC again while the handle
  answers the ping does nothing but the ping: no open, no close.  When
  the ping fails, the old handle is closed once, then a new one is
  opened, and nothing else is opened or closed.  The PACTOR modem has
  no liveness probe: initialising it again closes the existing handle
  once and then opens a new one, healthy or not. *)
Theorem modem_reinit (st : State W) :
(∀ h, adTNC st = Some h → ans_Ping X h (world st) = None →
      initArdopTNC X config st = (None, emits X [EvArdopPing h None] st))
∧ (∀ h e, adTNC st = Some h → ans_Ping X h (world st) = Some e →
          ∃ r es,
            let st' := run (initArdopTNC X config) st in
            trace st'
            = trace st
                ++ [EvArdopPing h (Some e); EvArdopClose h;
                    EvArdopOpenTCP (ArdopConfig.Addr (Ardop config)) (MyCall config)
                                   (Locator config) r]
                ++ es
            ∧ none_of [KModemOpen; KModemClose] es = true
            ∧ adTNC st' = opened_handle r)
∧ (∀ h cmdlineinit, pModem st = Some h →
          ∃ h' err es,
            let st' := run (initPactorModem X config cmdlineinit) st in
            trace st'
            = trace st
                ++ [EvPactorClose h;
                    EvPactorOpenModem (PactorConfig.Path (Pactor config))
                                      (PactorConfig.Baudrate (Pactor config)) (MyCall config)
                                      (PactorConfig.InitScript (Pactor config)) cmdlineinit
                                      h' err]
                ++ es
            ∧ none_of [KModemOpen; KModemClose] es = true
            ∧ pModem st' = h').
Proof.
split; [|split].
- intros h Hh Hping. unfold_modems. unfold_monad. unfold emits. simpl.
  rewrite Hh, Hping. reflexivity.
- intros h e Hh Hping. unfold_modems. unfold_monad. simpl.
  rewrite Hh, Hping. simpl.
  repeat (branch; simpl).
  all: eexists _, _; split; [simpl; rewrite <- ?app_assoc; simpl; reflexivity|].
  all: split; reflexivity.
- intros h cmdlineinit Hh. unfold_modems. unfold_monad. simpl.
  rewrite Hh. simpl.
  repeat (branch; simpl).
  all: eexists _, _, _; split; [simpl; rewrite <- ?app_assoc; simpl; reflexivity|].
  all: split; reflexivity.
Qed.

End Properties.

(** ** The claims at work in the lab *)

Lemma resolves_bad : resolves Runs.plain 1 "bad" "no scheme".
Proof.
  eapply resolves_alias; [done | reflexivity |].
  apply resolves_here; [done | reflexivity].
Defined.

Lemma resolves_home : resolves Runs.plain 1 "home" "telnet://LA1B@host:8772".
Proof.
  eapply resolves_alias; [done | reflexivity |].
  apply resolves_here; [done | reflexivity].
Defined.

Lemma Connect_parse_failure_witness :
  resolves Runs.plain 1 "bad" "no scheme"
  ∧ ParseURL (Lab.external Lab.success) "no scheme" = inr (ErrNew "malformed connect string")
  ∧ Connect (Lab.external Lab.success) Runs.plain (1 + 4) "bad" Runs.start
    = Some (Returned false,
            emits (Lab.external Lab.success)
              [EvDebug "no scheme"; EvLog (LogError (ErrNew "malformed connect string"));
               EvSleep 1000; EvUpdateStatus] Runs.start).
Proof.
  split; [exact resolves_bad|]. split; [reflexivity|].
  apply (Connect_parse_failure (Lab.external Lab.success) Runs.plain 1 "bad" "no scheme").
  - exact resolves_bad.
  - reflexivity.
Defined.

Lemma connectAny_first_success_witness :
  connectAny (Lab.external Lab.success) Runs.plain 5 (["bad"] ++ "home" :: ["loop"]) Runs.start
  = Some (Returned true, Runs.after_home)
  ∧ connectAny (Lab.external Lab.success) Runs.plain 5 ["bad"; ""] Runs.start
    = Some (Returned false, Runs.after_bad).
Proof.
  split.
  - apply (proj1 (connectAny_first_success (Lab.external Lab.success) Runs.plain 5)
             ["bad"] "home" ["loop"] Runs.start Runs.after_bad Runs.after_home).
    + apply all_fail_cons with (st1 := Runs.after_bad); [vm_compute; reflexivity|].
      apply all_fail_nil.
    + vm_compute; reflexivity.
  - apply (proj2 (connectAny_first_success (Lab.external Lab.success) Runs.plain 5)
             ["bad"; ""] Runs.start Runs.after_bad).
    apply all_fail_cons with (st1 := Runs.after_bad); [vm_compute; reflexivity|].
    apply all_fail_cons with (st1 := Runs.after_bad); [vm_compute; reflexivity|].
    apply all_fail_nil.
Defined.

Lemma waitBusy_gate_witness :
  (IgnoreBusy Runs.impatient = true
   ∧ waitBusy (Lab.external Lab.success) Runs.impatient 1 1%nat Runs.start_busy
     = Some (emits (Lab.external Lab.success)
               [EvArdopBusy 1%nat true; EvLog LogIgnoringBusy] Runs.start_busy))
  ∧ (IgnoreBusy Runs.plain = false
     ∧ waitBusy (Lab.external Lab.success) Runs.plain (2 + 1) 1%nat Runs.start_busy
       = Some (emits (Lab.external Lab.success)
                 [EvArdopBusy 1%nat true; EvLog LogWaitingClear; EvSleep 300;
                  EvArdopBusy 1%nat true; EvSleep 300;
                  EvArdopBusy 1%nat false] Runs.start_busy)).
Proof.
  split.
  - split; [reflexivity|].
    apply (proj1 (waitBusy_gate (Lab.external Lab.success) Runs.impatient 1%nat 0
                    Runs.start_busy)).
    reflexivity.
  - split; [reflexivity|].
    apply (proj2 (waitBusy_gate (Lab.external Lab.success) Runs.plain 1%nat 0
                    Runs.start_busy) eq_refl 2%nat).
    + intros i Hi. destruct i as [|[|i]]; [reflexivity | reflexivity | lia].
    + reflexivity.
Defined.

Lemma Connect_freq_without_rig_witness :
  ∃ st' es,
    Connect (Lab.external Lab.no_rig) Runs.plain (0 + 4) "telnet://LA1B@host:8772?freq=7100"
      Runs.start
    = Some (Returned false, st')
    ∧ trace st'
      = trace Runs.start
          ++ EvDebug "telnet://LA1B@host:8772?freq=7100" :: es ++ [EvSleep 1000; EvUpdateStatus]
    ∧ only prologue_kinds es = true
    ∧ (∀ url' ds0 st0,
          connectPrologue (Lab.external Lab.no_rig) Runs.plain
            "telnet://LA1B@host:8772?freq=7100" [] Runs.start = (inl url', ds0, st0) →
          st' = emits (Lab.external Lab.no_rig)
                  [EvLog (LogUnableToQSY (qsy_lookup_error (Lab.external Lab.no_rig) "telnet"));
                   EvSleep 1000; EvUpdateStatus] st0).
Proof.
  apply (Connect_freq_without_rig (Lab.external Lab.no_rig) Runs.plain 0
           "telnet://LA1B@host:8772?freq=7100" "telnet://LA1B@host:8772?freq=7100"
           (Lab.url "telnet" "LA1B" [("freq", ["7100"])])).
  - apply resolves_here; [done | reflexivity].
  - reflexivity.
  - vm_compute. discriminate.
  - reflexivity.
Defined.

Lemma Connect_radio_only_with_SSID_witness :
  ∃ st' es,
    Connect (Lab.external Lab.success) Runs.radio_only_ssid (0 + 4) "telnet://LA1B@host:8772"
      Runs.start
    = Some (Returned false, st')
    ∧ trace st'
      = trace Runs.start
          ++ EvDebug "telnet://LA1B@host:8772" :: es ++ [EvSleep 1000; EvUpdateStatus]
    ∧ only prologue_kinds es = true
    ∧ (Scheme (Lab.url "telnet" "LA1B" [])
         ∉ [MethodArdop; MethodPactor; MethodVaraHF; MethodVaraFM] →
       es = [EvLog LogRadioOnlySSID]).
Proof.
  apply (Connect_radio_only_with_SSID (Lab.external Lab.success) Runs.radio_only_ssid 0
           "telnet://LA1B@host:8772" "telnet://LA1B@host:8772").
  - apply resolves_here; [done | reflexivity].
  - reflexivity.
  - reflexivity.
  - reflexivity.
Defined.

(** C5 as stated fails: with radio-only mode on and the callsign
    LA5NTA-1, connecting to an ARDOP descriptor opens and sets up the
    TNC before the call is rejected. *)
Lemma radio_only_contacts_modem :
  ¬ radio_only_contacts_nothing (Lab.external Lab.success) Runs.radio_only_ssid 5
      "ardop:///LA1B" Runs.start.
Proof.
  intros Hclaim.
  destruct (Hclaim (Lab.url "ardop" "LA1B" []) eq_refl eq_refl eq_refl)
    as (st' & es & Hconn & Htr & Hnone).
  vm_compute in Hconn. injection Hconn as <-.
  simpl in Htr. subst es.
  vm_compute in Hnone. discriminate Hnone.
Qed.

Lemma Connect_cancelled_in_flight_witness :
  connectPrepare (Lab.external Lab.cancelled) Runs.plain 4 "telnet://LA1B@host:8772" []
    Runs.start
  = (inl (Runs.telnet_url, 14100000), [FnStatusHack], Runs.before_dial)
  ∧ ∃ st' es,
      Connect (Lab.external Lab.cancelled) Runs.plain (1 + 5) "home" Runs.start
      = Some (Returned false, st')
      ∧ dialing st' = None
      ∧ trace st'
        = trace Runs.before_dial
            ++ [EvUpdateStatus; EvLog (LogConnecting "LA1B" "telnet");
                EvDial 0%nat Runs.telnet_url (DialCancelledInFlight [])]
            ++ cancel_events 0%nat Runs.before_dial
            ++ [EvUpdateStatus;
                EvLogConn "connect telnet://LA1B@host:8772" 14100000 None (Some Canceled);
                EvLog LogConnectCancelled]
            ++ es
      ∧ only deferred_kinds es = true.
Proof.
  split; [vm_compute; reflexivity|].
  apply (Connect_cancelled_in_flight (Lab.external Lab.cancelled) Runs.plain 1 "home"
           "telnet://LA1B@host:8772" 4 Runs.start Runs.before_dial Runs.telnet_url 14100000
           [FnStatusHack] []).
  - exact resolves_home.
  - vm_compute; reflexivity.
  - reflexivity.
Defined.

Lemma Connect_reverts_once_witness :
  ∃ oldFreq newFreq out st' pre mid r,
    Connect (Lab.external Lab.success) Runs.plain (0 + 6) "ardop:///LA1B?freq=7100"
      Runs.start_busy
    = Some (out, st')
    ∧ FnRevert "ardop" 0%nat 14100000 = FnRevert "ardop" 0%nat oldFreq
    ∧ trace st'
      = trace Runs.start_busy ++ pre
          ++ [EvLog (LogQSY "ardop" "7100"); EvRigGetFreq 0%nat oldFreq None;
              EvRigSetFreq 0%nat newFreq None; EvSleep 3000]
          ++ mid
          ++ [EvSleep 1000; EvLog (LogQSX "ardop" oldFreq); EvRigSetFreq 0%nat oldFreq r;
              EvSleep 1000; EvUpdateStatus]
    ∧ none_of [KRevertLog; KRigTune] pre = true
    ∧ none_of [KRevertLog; KRigTune] mid = true.
Proof.
  apply (Connect_reverts_once (Lab.external Lab.success) Runs.plain 0
           "ardop:///LA1B?freq=7100" "ardop:///LA1B?freq=7100" 5
           Runs.start_busy Runs.ardop_ready Runs.ardop_tuned Runs.ardop_freq_url
           (FnRevert "ardop" 0%nat 14100000)).
  - apply resolves_here; [done | reflexivity].
  - vm_compute; reflexivity.
  - vm_compute. discriminate.
  - vm_compute; reflexivity.
  - vm_compute; reflexivity.
Defined.

Lemma modem_reinit_witness :
  (adTNC Runs.after_ardop = Some 1%nat
   ∧ initArdopTNC (Lab.external Lab.success) Runs.plain Runs.after_ardop
     = (None, emits (Lab.external Lab.success) [EvArdopPing 1%nat None] Runs.after_ardop))
  ∧ (∃ r es,
        let st' := run (initArdopTNC (Lab.external Runs.tnc_gone) Runs.plain) Runs.after_ardop in
        trace st'
        = trace Runs.after_ardop
            ++ [EvArdopPing 1%nat (Some (ErrNew "ping timeout")); EvArdopClose 1%nat;
                EvArdopOpenTCP "localhost:8515" "LA5NTA" "JP20qe" r]
            ++ es
        ∧ none_of [KModemOpen; KModemClose] es = true
        ∧ adTNC st' = opened_handle r)
  ∧ (∃ h' err es,
        let st' := run (initPactorModem (Lab.external Lab.success) Runs.plain "") Runs.after_pactor in
        trace st'
        = trace Runs.after_pactor
            ++ [EvPactorClose 1%nat;
                EvPactorOpenModem "/dev/ttyUSB0" 57600 "LA5NTA" "" "" h' err]
            ++ es
        ∧ none_of [KModemOpen; KModemClose] es = true
        ∧ pModem st' = h').
Proof.
  split; [|split].
  - split; [vm_compute; reflexivity|].
    apply (proj1 (modem_reinit (Lab.external Lab.success) Runs.plain Runs.after_ardop) 1%nat).
    + vm_compute; reflexivity.
    + reflexivity.
  - apply (proj1 (proj2 (modem_reinit (Lab.external Runs.tnc_gone) Runs.plain Runs.after_ardop))
             1%nat (ErrNew "ping timeout")).
    + vm_compute; reflexivity.
    + reflexivity.
  - apply (proj2 (proj2 (modem_reinit (Lab.external Lab.success) Runs.plain Runs.after_pactor))
             1%nat "").
    vm_compute; reflexivity.
Defined.

(** C3 as stated fails for the PACTOR modem: after a PACTOR session the
    handle is non-nil, and initialising again closes it and opens
    another. *)
Lemma pactor_reinit_reopens :
  ¬ pactor_reuse_is_idempotent (Lab.external Lab.success) Runs.plain "" Runs.after_pactor.
Proof.
  intros Hclaim.
  assert (pModem Runs.after_pactor = Some 1%nat) as Hh by (vm_compute; reflexivity).
  destruct (Hclaim 1%nat Hh) as (es & Htr & Hnone).
  vm_compute in Htr. injection Htr as <-.
  vm_compute in Hnone. discriminate Hnone.
Qed.

(** C2 at its failing input: two VARA HF sessions in a row.  Both calls
    open a modem (handles 1 and 2); no handle is ever closed, and the
    package variable [varaHFModem] is still nil afterwards, so that the
    handles can no longer be reached. *)
Theorem vara_reinit_leaks_handle :
  Connect (Lab.external Lab.success) Runs.plain 5 "varahf:///LA1B" Runs.start
  = Some (Returned true, Runs.after_vara1)
  ∧ Connect (Lab.external Lab.success) Runs.plain 5 "varahf:///LA1B" Runs.after_vara1
    = Some (Returned true, Runs.after_vara2)
  ∧ Runs.lifecycle (trace Runs.after_vara2)
    = [EvVaraNewModem "varahf" "LA5NTA" (ModemConfig.mk "localhost" 8300 8301) (OpenOk 1%nat);
       EvVaraNewModem "varahf" "LA5NTA" (ModemConfig.mk "localhost" 8300 8301) (OpenOk 2%nat)]
  ∧ varaHFModem Runs.after_vara1 = None
  ∧ varaHFModem Runs.after_vara2 = None.
Proof.
  split; [vm_compute; reflexivity|].
  split; [vm_compute; reflexivity|].
  split; [vm_compute; reflexivity|].
  split; vm_compute; reflexivity.
Qed.

(** In the lab the rig obeys: after an ARDOP session with a [freq]
    parameter it is back on the frequency it was on before the call. *)
Example lab_rig_back_on_frequency :
  Lab.rig_freq (world (Runs.after Lab.success Runs.plain 6 "ardop:///LA1B?freq=7100"
                         Runs.start_busy))
  = Lab.rig_freq (world Runs.start_busy).
Proof. vm_compute; reflexivity. Qed.

(** ** Further properties *)

Section More.
Context {W : Type}.
Variable X : External W.
Variable config : Config.

Lemma connectPrologue_frame t (st : State W) :
∃ r st' es,
  connectPrologue X config t [] st = (r, [FnStatusHack], st')
  ∧ trace st' = trace st ++ EvDebug t :: es
  ∧ (dialing st' = dialing st ∧ varaHFModem st' = varaHFModem st
     ∧ varaFMModem st' = varaFMModem st ∧ dialCancelFunc st' = dialCancelFunc st
     ∧ ctx_count st' = ctx_count st ∧ ctx_cancelled st' = ctx_cancelled st)
  ∧ (∀ url', r = inl url' → Scheme url' = MethodArdop → adTNC st' ≠ None)
  ∧ (∀ url', r = inl url' →
             ∃ parsed, ParseURL X t = inl parsed ∧ url' = dialled_descriptor config parsed)
  ∧ (∀ url, ParseURL X t = inl url → has_modem (Scheme url) = false →
            none_of modem_kinds es = true)
  ∧ none_of [KRigRead; KRigTune; KRevertLog; KBusyPoll; KDial; KExchange; KCancel; KSleep; KStatus; KEventLog] es = true.
Proof.
unfold connectPrologue, initTNCs, init_or_return, applyRadioOnly.
unfold_modems. unfold_monad. simpl.
repeat (branch; simpl).
all: eexists _, _, _; split; [reflexivity|]; split; [trace_eq|]; split; [done|].
all: split; [|split; [|split; [|reflexivity]]].
all: try (intros ? [=]; fail).
all: try (intros ? [= <-]; simpl; rewrite applyDefaults_Scheme; intros;
          unfold MethodArdop, MethodPactor, MethodVaraHF, MethodVaraFM in *; congruence).
all: try (intros ? [= <-]; eexists; split; [reflexivity|]; unfold dialled_descriptor;
          match goal with H : radioOnly _ _ = _ |- _ => rewrite H end; reflexivity).
all: intros ? [= <-] Hno; try reflexivity.
all: exfalso; unfold has_modem in Hno;
  match goal with H : Scheme _ = _ |- _ => rewrite H in Hno end;
  vm_compute in Hno; discriminate Hno.
Qed.

Lemma only_sub ks ks' es :
forallb (fun k => bool_decide (k ∈ ks')) ks = true →
only ks es = true → only ks' es = true.
Proof.
intros Hsub. unfold only. rewrite !forallb_forall in *. intros H e He.
specialize (H e He). apply bool_decide_eq_true in H. apply list_elem_of_In in H.
exact (Hsub _ H).
Qed.

Lemma none_of_sub ks ks' es :
forallb (fun k => bool_decide (k ∈ ks)) ks' = true →
none_of ks es = true → none_of ks' es = true.
Proof.
intros Hsub. unfold none_of. rewrite !forallb_forall in *. intros H e He.
specialize (H e He). apply negb_true_iff, bool_decide_eq_false in H.
apply negb_true_iff, bool_decide_eq_false. intros Hin. apply H.
apply list_elem_of_In in Hin. specialize (Hsub _ Hin). by apply bool_decide_eq_true in Hsub.
Qed.

Lemma none_of_app2 ks a b :
none_of ks a = true → none_of ks b = true → none_of ks (a ++ b) = true.
Proof. intros Ha Hb. by rewrite none_of_app, Ha, Hb. Qed.

Lemma none_of_app3 ks a b c :
none_of ks a = true → none_of ks b = true → none_of ks c = true →
none_of ks (a ++ b ++ c) = true.
Proof. intros Ha Hb Hc. by rewrite !none_of_app, Ha, Hb, Hc. Qed.

Lemma none_of_app4 ks a b c d :
none_of ks a = true → none_of ks b = true → none_of ks c = true → none_of ks d = true →
none_of ks (a ++ b ++ c ++ d) = true.
Proof. intros Ha Hb Hc Hd. by rewrite !none_of_app, Ha, Hb, Hc, Hd. Qed.

Lemma none_of_union ks1 ks2 es :
none_of ks1 es = true → none_of ks2 es = true → none_of (ks1 ++ ks2) es = true.
Proof.
unfold none_of. rewrite !forallb_forall. intros H1 H2 e He.
specialize (H1 e He). specialize (H2 e He).
apply negb_true_iff, bool_decide_eq_false in H1.
apply negb_true_iff, bool_decide_eq_false in H2.
apply negb_true_iff, bool_decide_eq_false. intros [?|?]%elem_of_app; auto.
Qed.

Lemma same_globals_refl (st : State W) : same_globals st st.
Proof. by repeat split. Qed.

Lemma same_globals_trans (st1 st2 st3 : State W) :
same_globals st1 st2 → same_globals st2 st3 → same_globals st1 st3.
Proof.
intros (? & ? & ? & ? & ? & ? & ? & ?) (? & ? & ? & ? & ? & ? & ? & ?).
repeat split; congruence.
Qed.

Lemma same_globals_emits es (st : State W) : same_globals st (emits X es st).
Proof. destruct (globals_emits X es st) as (? & ? & ? & ? & ? & ? & ? & ?). by repeat split. Qed.

Lemma qsy_cases method addr (st : State W) :
∃ rev err st' es,
  qsy X method addr st = ((rev, err), st')
  ∧ trace st' = trace st ++ es
  ∧ same_globals st st'
  ∧ only [KLog; KRigRead; KRigTune; KSleep] es = true
  ∧ match err with
    | Some e =>
        rev = FnNoop
        ∧ none_of [KSleep] es = true
        ∧ (none_of [KRigTune] es = true
           ∨ ∃ rig f, last es = Some (EvRigSetFreq rig f (Some e)))
    | None => ∃ rig oldFreq, rev = FnRevert method rig oldFreq
    end.
Proof.
unfold qsy, setFreq, VFO_GetFreq, VFO_SetFreq. unfold_monad. simpl.
repeat (branch; simpl).
all: eexists _, _, _, _; split; [reflexivity|]; split; [trace_eq|].
all: split; [by repeat split|]; split; [reflexivity|].
all: try (split; [reflexivity|]; split; [reflexivity|]; first [left; reflexivity | right; eexists _, _; reflexivity]).
all: eexists _, _; reflexivity.
Qed.

Lemma waitBusy_loop_ignore b fuel (st : State W) :
IgnoreBusy config = true →
∃ es, waitBusy X config (S fuel) b st = Some (emits X es st).
Proof.
intros Hig. unfold waitBusy. cbn [waitBusy_loop]. unfold TNC_Busy, ask. rewrite Hig. simpl.
destruct (ans_Busy X b (world st)).
- by exists [EvArdopBusy b true; EvLog LogIgnoringBusy].
- by exists [EvArdopBusy b false].
Qed.

Lemma waitClearChannel_cases fuel url ds (st : State W) :
∃ r st',
  waitClearChannel X config fuel url ds st = (r, ds, st')
  ∧ ((r = inr ExDiverge ∧ Scheme url = MethodArdop
      ∧ (IgnoreBusy config = true → fuel = 0%nat))
     ∨ ∃ es, st' = emits X es st
             ∧ only [KBusyPoll; KLog; KSleep] es = true
             ∧ (Scheme url ≠ MethodArdop → es = [])
             ∧ (r = inl tt ∨ (r = inr ExPanic ∧ Scheme url = MethodArdop ∧ adTNC st = None))).
Proof.
unfold waitClearChannel.
destruct (decide (Scheme url = MethodArdop)) as [Hs|Hs].
- destruct (adTNC st) as [b|] eqn:Hb.
  + destruct (waitBusy X config fuel b st) as [st'|] eqn:Hw.
    * apply waitBusy_loop_emits in Hw as (es & -> & Hes).
      eexists _, _. split; [reflexivity|]. right. exists es. repeat split; auto. done.
    * eexists _, _. split; [reflexivity|]. left. split; [done|]. split; [done|].
      intros Hig. destruct fuel as [|fuel]; [done|].
      destruct (waitBusy_loop_ignore b fuel st Hig) as [es Hes]. congruence.
  + eexists _, _. split; [reflexivity|]. right. exists []. repeat split; auto.
- eexists _, _. split; [reflexivity|]. right. exists []. repeat split; auto.
Qed.

Lemma connectDial_full connectStr url currFreq ds (st : State W) :
∃ r st' es,
  connectDial X connectStr url currFreq ds st = (r, FnCancelDial (ctx_count st) :: ds, st')
  ∧ trace st' = trace st ++ es
  ∧ only dial_kinds es = true
  ∧ none_of [KBusyPoll; KRigRead] es = true
  ∧ (dialing st' = None ∧ adTNC st' = adTNC st ∧ pModem st' = pModem st
     ∧ varaHFModem st' = varaHFModem st ∧ varaFMModem st' = varaFMModem st
     ∧ dialCancelFunc st' = FnCancelDial (ctx_count st)
     ∧ ctx_count st' = S (ctx_count st)
     ∧ (ctx_cancelled st' = ctx_cancelled st
        ∨ ctx_cancelled st' = ctx_count st :: ctx_cancelled st))
  ∧ (r = inr (ExReturn false) ∨ r = inl false
     ∨ (r = inl true
        ∧ ∃ conn, es = session_events (ctx_count st) connectStr url currFreq conn)).
Proof.
unfold connectDial, DialURLContext, context_WithCancel, set_dialCancelFunc, exchange,
  call, context_cancel, set_dialing.
unfold_monad. simpl.
repeat (branch; simpl).
all: eexists _, _, _; split; [reflexivity|]; split; [trace_eq|]; split; [reflexivity|].
all: split; [reflexivity|]; split; [repeat split; auto|].
all: first [by left | by right; left | right; right; split; [done|]; eexists; reflexivity].
Qed.

Lemma call_full f (st : State W) :
∃ es,
  trace (run (call X f) st) = trace st ++ es
  ∧ only deferred_kinds es = true
  ∧ (adTNC (run (call X f) st) = adTNC st ∧ pModem (run (call X f) st) = pModem st
     ∧ varaHFModem (run (call X f) st) = varaHFModem st
     ∧ varaFMModem (run (call X f) st) = varaFMModem st
     ∧ dialCancelFunc (run (call X f) st) = dialCancelFunc st
     ∧ ctx_count (run (call X f) st) = ctx_count st)
  ∧ (dialing st = None → dialing (run (call X f) st) = None)
  ∧ (∀ k, k ∈ ctx_cancelled st → k ∈ ctx_cancelled (run (call X f) st))
  ∧ (∀ k, f = FnCancelDial k → k ∈ ctx_cancelled (run (call X f) st))
  ∧ ((∀ m r o, f ≠ FnRevert m r o) → none_of [KRigTune; KRevertLog] es = true).
Proof.
destruct f; unfold call, context_cancel, set_dialing, VFO_SetFreq; unfold_monad; simpl.
all: repeat (branch; simpl).
all: eexists; split; [trace_eq|]; split; [reflexivity|]; split; [by repeat split|].
all: split; [done|]; split; [intros k Hk; try done; by apply elem_of_cons; right|].
all: split; [intros k [=]; subst;
            first [ match goal with H : bool_decide _ = true |- _ =>
                      apply bool_decide_eq_true in H; exact H end
                  | by apply elem_of_cons; left ]|].
all: intros Hno; first [reflexivity | by exfalso; eapply Hno].
Qed.

Lemma run_deferred_full ds :
∀ st : State W,
  ∃ es,
    trace (run_deferred X ds st) = trace st ++ es
    ∧ only deferred_kinds es = true
    ∧ (adTNC (run_deferred X ds st) = adTNC st ∧ pModem (run_deferred X ds st) = pModem st
       ∧ varaHFModem (run_deferred X ds st) = varaHFModem st
       ∧ varaFMModem (run_deferred X ds st) = varaFMModem st
       ∧ dialCancelFunc (run_deferred X ds st) = dialCancelFunc st
       ∧ ctx_count (run_deferred X ds st) = ctx_count st)
    ∧ (dialing st = None → dialing (run_deferred X ds st) = None)
    ∧ (∀ k, k ∈ ctx_cancelled st → k ∈ ctx_cancelled (run_deferred X ds st))
    ∧ (∀ k, FnCancelDial k ∈ ds → k ∈ ctx_cancelled (run_deferred X ds st))
    ∧ ((∀ m r o, FnRevert m r o ∉ ds) → none_of [KRigTune; KRevertLog] es = true).
Proof.
induction ds as [|f ds IH]; intros st.
- exists []. unfold run_deferred. simpl. rewrite app_nil_r.
  repeat split; auto. intros k Hk. by apply elem_of_nil in Hk.
- change (run_deferred X (f :: ds) st) with (run_deferred X ds (run (call X f) st)).
  destruct (call_full f st) as (es1 & Ht1 & Hk1 & Hg1 & Hd1 & Hc1 & Hn1 & Hr1).
  destruct (IH (run (call X f) st)) as (es2 & Ht2 & Hk2 & Hg2 & Hd2 & Hc2 & Hn2 & Hr2).
  destruct Hg1 as (? & ? & ? & ? & ? & ?). destruct Hg2 as (? & ? & ? & ? & ? & ?).
  exists (es1 ++ es2). rewrite Ht2, Ht1, <- app_assoc, only_app, Hk1, Hk2.
  split; [done|]. split; [done|]. split; [repeat split; congruence|].
  split; [auto|]. split; [auto|]. split.
  + intros k Hk. apply elem_of_cons in Hk as [<-|Hk]; [apply Hc2; by apply Hn1 | by apply Hn2].
  + intros Hno. rewrite none_of_app, Hr1, Hr2; [done| |].
    * intros m r o Hin. apply (Hno m r o). by apply elem_of_cons; right.
    * intros m r o ->. apply (Hno m r o). by apply elem_of_cons; left.
Qed.

(** The last steps before the dial: frequency snapshot and busy gate. *)
Lemma prepare_tail fuel url ds (st : State W) :
∃ r st1,
  bbind (lift (snapshotFreq X url))
        (λ currFreq, bbind (waitClearChannel X config fuel url) (λ _, bret (url, currFreq)))
        ds st = (r, ds, st1)
  ∧ ((r = inr ExDiverge ∧ Scheme url = MethodArdop
      ∧ (IgnoreBusy config = true → fuel = 0%nat))
     ∨ ∃ es, st1 = emits X es st
             ∧ only [KRigRead; KBusyPoll; KLog; KSleep] es = true
             ∧ (Scheme url ≠ MethodArdop → none_of [KBusyPoll] es = true)
             ∧ ((∃ currFreq, r = inl (url, currFreq))
                ∨ (r = inr ExPanic ∧ Scheme url = MethodArdop ∧ adTNC st = None))).
Proof.
unfold bbind, lift.
destruct (snapshotFreq_spec X url st) as (f & es1 & -> & Hk1).
destruct (waitClearChannel_cases fuel url ds (emits X es1 st)) as (r & st' & -> & Hr).
destruct Hr as [(-> & Hs & Hf) | (es2 & -> & Hk2 & Hna & Hr)].
- eexists _, _. split; [reflexivity|]. by left.
- assert (only [KRigRead; KBusyPoll; KLog; KSleep] (es1 ++ es2) = true) as Hk.
  { rewrite only_app. apply andb_true_intro. split.
    - revert Hk1. by apply only_sub.
    - revert Hk2. by apply only_sub. }
  assert (Scheme url ≠ MethodArdop → none_of [KBusyPoll] (es1 ++ es2) = true) as Hnb.
  { intros Hs. rewrite (Hna Hs), app_nil_r. revert Hk1. by apply only_none_of. }
  destruct Hr as [-> | (-> & Hs & Hb)].
  + eexists _, _. split; [reflexivity|]. right. exists (es1 ++ es2).
    split; [by rewrite emits_app|]. split; [done|]. split; [done|]. left. eauto.
  + eexists _, _. split; [reflexivity|]. right. exists (es1 ++ es2).
    split; [by rewrite emits_app|]. split; [done|]. split; [done|]. right.
    split; [done|]. split; [done|].
    destruct (globals_emits X es1 st) as (_ & <- & _). done.
Qed.

Lemma connectPrepare_cases fuel t (st : State W) :
∃ r ds st1,
  connectPrepare X config fuel t [] st = (r, ds, st1)
  ∧ ((r = inr ExDiverge
      ∧ (∃ url, ParseURL X t = inl url ∧ Scheme url = MethodArdop)
      ∧ (IgnoreBusy config = true → fuel = 0%nat))
     ∨ ∃ es,
         trace st1 = trace st ++ es
         ∧ (dialing st1 = dialing st ∧ varaHFModem st1 = varaHFModem st
            ∧ varaFMModem st1 = varaFMModem st ∧ dialCancelFunc st1 = dialCancelFunc st
            ∧ ctx_count st1 = ctx_count st ∧ ctx_cancelled st1 = ctx_cancelled st)
         ∧ none_of [KDial; KExchange; KCancel; KStatus; KEventLog; KRevertLog] es = true
         ∧ (∀ url, ParseURL X t = inl url → has_modem (Scheme url) = false →
                   none_of modem_kinds es = true)
         ∧ (∀ url, ParseURL X t = inl url → Values_Get (Params url) "freq" = "" →
                   none_of [KRigTune] es = true ∧ ds = [FnStatusHack])
         ∧ (∀ url, ParseURL X t = inl url → Scheme url ≠ MethodArdop →
                   none_of [KBusyPoll] es = true)
         ∧ (ds = [FnStatusHack] ∨ ∃ m rig o, ds = [FnRevert m rig o; FnStatusHack])
         ∧ (r = inr (ExReturn false)
            ∨ ∃ parsed currFreq, ParseURL X t = inl parsed
                                 ∧ r = inl (dialled_descriptor config parsed, currFreq))).
Proof.
destruct (connectPrologue_frame t st)
  as (r0 & st0 & es0 & Hpro & Htr0 & Hg0 & Hard & Hdesc & Hmod & Hq0).
destruct (connectPrologue_spec X config t st) as (r0' & st0' & es0' & Hpro' & _ & _ & Hr0).
rewrite Hpro in Hpro'. injection Hpro' as <- <-.
destruct Hg0 as (Hd0 & Hh0 & Hf0 & Hc0 & Hn0 & Hx0).
unfold connectPrepare. unfold bbind at 1. rewrite Hpro.
destruct r0 as [url'|x].
- destruct Hr0 as (url & Hparse & Hs & Hpar & _).
  specialize (Hard url' eq_refl). specialize (Hmod url Hparse).
  destruct (Hdesc url' eq_refl) as (parsed & Hparsed & Hurl').
  assert (∀ u, ParseURL X t = inl u → u = url) as Huniq by (intros u Hu; congruence).
  unfold bbind at 1. unfold connectQSY. rewrite Hpar, applyDefaults_Get by done.
  destruct (decide (Values_Get (Params url) "freq" = "")) as [Hfreq|Hfreq].
  + unfold bret at 1.
    destruct (prepare_tail fuel url' [FnStatusHack] st0) as (r & st1 & -> & Hr).
    eexists _, _, _. split; [reflexivity|].
    destruct Hr as [(-> & Hsa & Hf) | (es1 & -> & Hk1 & Hnb & Hr)];
      [left; split; [done|]; split; [|done]; exists url; split; [done|congruence]|right].
    destruct (globals_emits X es1 st0) as (Ed & Ea & _ & Eh & Ef & Ec & En & Ex).
    exists ([EvDebug t] ++ es0 ++ es1). rewrite trace_emits, Htr0.
    split; [by rewrite <- app_assoc|]. split; [repeat split; congruence|].
    split; [apply none_of_app3;
            [reflexivity | by eapply none_of_sub; [|exact Hq0]
             | by eapply only_none_of; [|exact Hk1]]|].
    split; [intros u Hu Hm; rewrite (Huniq u Hu) in Hm;
            apply none_of_app3;
            [reflexivity | by apply Hmod | by eapply only_none_of; [|exact Hk1]]|].
    split; [intros u Hu _; split; [|done];
            apply none_of_app3;
            [reflexivity | by eapply none_of_sub; [|exact Hq0]
             | by eapply only_none_of; [|exact Hk1]]|].
    split; [intros u Hu Hna; rewrite (Huniq u Hu), <- Hs in Hna;
            apply none_of_app3;
            [reflexivity | by eapply none_of_sub; [|exact Hq0] | by apply Hnb]|].
    split; [by left|].
    destruct Hr as [[cf ->] | (_ & Hsa & Hnil)]; [right; exists parsed, cf; by rewrite <- Hurl'|].
    exfalso. by apply (Hard Hsa).
  + destruct (qsy_cases (Scheme url') (Values_Get (Params url) "freq") st0)
      as (rev & err & stq & esq & Hqsy & Htrq & Hgq & Hkq & Herr).
    unfold lift at 1. unfold bbind at 1. rewrite Hqsy.
    destruct Hgq as (Qd & Qa & _ & Qh & Qf & Qc & Qn & Qx).
    destruct err as [e|].
    * unfold bbind, lift, log_Print, emit, exit. simpl.
      eexists _, _, _. split; [reflexivity|]. right.
      exists ([EvDebug t] ++ es0 ++ esq ++ [EvLog (LogUnableToQSY e)]).
      cbn [trace dialing varaHFModem varaFMModem dialCancelFunc ctx_count ctx_cancelled].
      rewrite Htrq, Htr0.
      split; [by rewrite <- !app_assoc|]. split; [repeat split; congruence|].
      split; [apply none_of_app4;
              [reflexivity | by eapply none_of_sub; [|exact Hq0]
               | by eapply only_none_of; [|exact Hkq] | reflexivity]|].
      split; [intros u Hu Hm; rewrite (Huniq u Hu) in Hm;
              apply none_of_app4;
              [reflexivity | by apply Hmod | by eapply only_none_of; [|exact Hkq]
               | reflexivity]|].
      split; [intros u Hu Hf; by rewrite (Huniq u Hu) in Hf|].
      split; [intros u Hu Hna;
              apply none_of_app4;
              [reflexivity | by eapply none_of_sub; [|exact Hq0]
               | by eapply only_none_of; [|exact Hkq] | reflexivity]|].
      split; [by left | by left].
    * destruct Herr as (rig & old & ->). unfold defer at 1.
      destruct (prepare_tail fuel url' [FnRevert (Scheme url') rig old; FnStatusHack] stq)
        as (r & st1 & -> & Hr).
      eexists _, _, _. split; [reflexivity|].
      destruct Hr as [(-> & Hsa & Hf) | (es1 & -> & Hk1 & Hnb & Hr)];
      [left; split; [done|]; split; [|done]; exists url; split; [done|congruence]|right].
      destruct (globals_emits X es1 stq) as (Ed & Ea & _ & Eh & Ef & Ec & En & Ex).
      exists ([EvDebug t] ++ es0 ++ esq ++ es1). rewrite trace_emits, Htrq, Htr0.
      split; [by rewrite <- !app_assoc|]. split; [repeat split; congruence|].
      split; [apply none_of_app4;
              [reflexivity | by eapply none_of_sub; [|exact Hq0]
               | by eapply only_none_of; [|exact Hkq]
               | by eapply only_none_of; [|exact Hk1]]|].
      split; [intros u Hu Hm; rewrite (Huniq u Hu) in Hm;
              apply none_of_app4;
              [reflexivity | by apply Hmod | by eapply only_none_of; [|exact Hkq]
               | by eapply only_none_of; [|exact Hk1]]|].
      split; [intros u Hu Hf; by rewrite (Huniq u Hu) in Hf|].
      split; [intros u Hu Hna; rewrite (Huniq u Hu), <- Hs in Hna;
              apply none_of_app4;
              [reflexivity | by eapply none_of_sub; [|exact Hq0]
               | by eapply only_none_of; [|exact Hkq] | by apply Hnb]|].
      split; [right; eauto|].
      destruct Hr as [[cf ->] | (_ & Hsa & Hnil)]; [right; exists parsed, cf; by rewrite <- Hurl'|].
      exfalso. apply (Hard Hsa). by rewrite <- Qa.
- destruct Hr0 as [-> _].
  eexists _, _, _. split; [reflexivity|]. right.
  exists ([EvDebug t] ++ es0). 
  split; [done|]. split; [done|].
  split; [apply none_of_app2;
          [reflexivity | by eapply none_of_sub; [|exact Hq0]]|].
  split; [intros u Hu Hm; apply none_of_app2;
          [reflexivity | by apply (Hmod u)]|].
  split; [intros u Hu _; split; [|done];
          apply none_of_app2;
          [reflexivity | by eapply none_of_sub; [|exact Hq0]]|].
  split; [intros u Hu _; apply none_of_app2;
          [reflexivity | by eapply none_of_sub; [|exact Hq0]]|].
  split; [by left | by left].
Qed.

Lemma body_returns fuel t (st : State W) out st' :
leave X (connectBody X config fuel t [] st) = Some (out, st') →
out ≠ Panicked
∧ varaHFModem st' = varaHFModem st ∧ varaFMModem st' = varaFMModem st
∧ (idle st → idle st')
∧ ∃ es,
    trace st' = trace st ++ es
    ∧ (∀ url, ParseURL X t = inl url → has_modem (Scheme url) = false →
              none_of modem_kinds es = true)
    ∧ (∀ url, ParseURL X t = inl url → Values_Get (Params url) "freq" = "" →
              none_of [KRigTune; KRevertLog] es = true)
    ∧ (∀ url, ParseURL X t = inl url → Scheme url ≠ MethodArdop →
              none_of [KBusyPoll] es = true)
    ∧ (out = Returned true →
       ∃ pre ctx parsed currFreq conn post,
         ParseURL X t = inl parsed
         ∧ es = pre ++ session_events ctx t (dialled_descriptor config parsed) currFreq conn
                  ++ post
         ∧ none_of [KDial; KExchange] pre = true
         ∧ only deferred_kinds post = true).
Proof.
unfold connectBody, bbind.
destruct (connectPrepare_cases fuel t st) as (r & ds & st1 & -> & Hr).
destruct Hr as [(-> & _) | (es1 & Htr1 & Hg1 & Hq1 & Hmod & Hfreq & Hna & Hds & Hr)];
  [simpl; discriminate|].
destruct Hg1 as (Gd & Gh & Gf & Gc & Gn & Gx).
assert (∀ m r o, ds = [FnStatusHack] → FnRevert m r o ∉ ds) as Hnorev.
{ intros m r0 o -> Hin. apply list_elem_of_singleton in Hin. discriminate. }
destruct Hr as [-> | (parsed & cf & Hparsed & ->)].
- cbn [leave]. intros [= <- <-].
  destruct (run_deferred_full ds st1)
    as (es2 & Htr2 & Hk2 & (_ & _ & Dh & Df & Dc & Dn) & Dd & Dx & _ & Dr).
  split; [done|]. split; [congruence|]. split; [congruence|]. split.
  { intros (Id & Ic & Ih). split; [apply Dd; congruence|]. split.
    - intros k Hk. apply Dx. rewrite Gx. apply Ic. by rewrite <- Gn, <- Dn.
    - rewrite Dc, Gc, Dn, Gn. exact Ih. }
  exists (es1 ++ es2). rewrite Htr2, Htr1, <- app_assoc.
  split; [done|]. split; [|split; [|split; [|done]]].
  + intros u Hu Hm. apply none_of_app2; [by apply (Hmod u)|].
    by eapply only_none_of; [|exact Hk2].
  + intros u Hu Hf. destruct (Hfreq u Hu Hf) as [Ht ->].
    apply none_of_app2; [|by apply Dr; intros m r0 o; apply Hnorev].
    apply (none_of_union [KRigTune] [KRevertLog]); [done|].
    by eapply none_of_sub; [|exact Hq1].
  + intros u Hu Hs. apply none_of_app2; [by apply (Hna u)|].
    by eapply only_none_of; [|exact Hk2].
- set (url := dialled_descriptor config parsed).
  destruct (connectDial_full t url cf ds st1)
    as (r3 & st3 & es3 & -> & Htr3 & Hk3 & Hq3 & Hg3 & Hr3).
  destruct Hg3 as (Sd & _ & _ & Sh & Sf & Sc & Sn & Sx).
  destruct (run_deferred_full (FnCancelDial (ctx_count st1) :: ds) st3)
    as (es2 & Htr2 & Hk2 & (_ & _ & Dh & Df & Dc & Dn) & Dd & Dx & Dk & Dr).
  intros Hleave.
  assert (st' = run_deferred X (FnCancelDial (ctx_count st1) :: ds) st3
          ∧ out ≠ Panicked
          ∧ (out = Returned true →
             ∃ conn, es3 = session_events (ctx_count st1) t url cf conn))
    as (-> & Hout & Hsucc).
  { destruct Hr3 as [-> | [-> | (-> & Hconn)]]; cbn [leave] in Hleave;
      injection Hleave as <- <-; (split; [done|]); (split; [done|]); [done|done|auto]. }
  split; [done|]. split; [congruence|]. split; [congruence|]. split.
  { intros (Id & Ic & Ih). split; [by apply Dd|]. split.
    - intros k Hk. rewrite Dn, Sn, Gn in Hk.
      destruct (decide (k = ctx_count st)) as [->|Hne].
      + apply Dk. rewrite Gn. by apply elem_of_cons; left.
      + apply Dx. assert (k ∈ ctx_cancelled st1) as Hin by (rewrite Gx; apply Ic; lia).
        destruct Sx as [-> | ->]; [done | by apply elem_of_cons; right].
    - right. exists (ctx_count st1). rewrite Dc, Sc, Dn, Sn. split; [lia|done]. }
  exists (es1 ++ es3 ++ es2). rewrite Htr2, Htr3, Htr1, <- !app_assoc.
  split; [done|]. split; [|split; [|split]].
  + intros u Hu Hm. apply none_of_app3; [by apply (Hmod u)| |].
    * by eapply only_none_of; [|exact Hk3].
    * by eapply only_none_of; [|exact Hk2].
  + intros u Hu Hf. destruct (Hfreq u Hu Hf) as [Ht ->].
    apply none_of_app3.
    * apply (none_of_union [KRigTune] [KRevertLog]); [done|].
      by eapply none_of_sub; [|exact Hq1].
    * by eapply only_none_of; [|exact Hk3].
    * apply Dr. intros m r0 o Hin. apply elem_of_cons in Hin as [?|Hin]; [done|].
      by apply (Hnorev m r0 o).
  + intros u Hu Hs. apply none_of_app3; [by apply (Hna u)| |].
    * by eapply none_of_sub; [|exact Hq3].
    * by eapply only_none_of; [|exact Hk2].
  + intros Ht. destruct (Hsucc Ht) as (conn & ->).
    exists es1, (ctx_count st1), parsed, cf, conn, es2.
    split; [done|]. split; [done|]. split; [|done]. by eapply none_of_sub; [|exact Hq1].
Qed.

(** A call of [Connect] that returns either met the empty string (after
    any number of aliases) or ran the body on a descriptor that is not an
    alias. *)
Lemma Connect_returns_inv fuel :
∀ s (st : State W) out st',
  Connect X config fuel s st = Some (out, st') →
  (out = Returned false ∧ st' = st)
  ∨ ∃ t fuel', t ≠ "" ∧ ConnectAliases config !! t = None
               ∧ leave X (connectBody X config fuel' t [] st) = Some (out, st').
Proof.
induction fuel as [|fuel IH]; intros s st out st'; [done|].
cbn [Connect]. destruct (decide (s = "")) as [->|Hne].
- intros [= <- <-]. by left.
- destruct (ConnectAliases config !! s) as [a|] eqn:Ha.
  + apply IH.
  + intros Hbody. right. eauto.
Qed.

(** *** Further properties of connect.go *)

(** X1. [Connect] never panics by itself: whenever it comes back, it
    comes back with a boolean.  In particular the nil TNC that [waitBusy]
    would dereference cannot occur, because [initArdopTNC] reports no
    error only with a non-nil [adTNC] ([ardop.OpenTCP] returning a TNC
    whenever it returns no error). *)
Theorem Connect_never_panics fuel s (st st' : State W) out :
Connect X config fuel s st = Some (out, st') →
∃ success, out = Returned success.
Proof.
intros Hc. apply Connect_returns_inv in Hc as [[-> _] | (t & fuel' & _ & _ & Hbody)]; [eauto|].
apply body_returns in Hbody as (Hout & _). destruct out; [eauto | done].
Qed.

(** X2. [Connect] never assigns the package variables [varaHFModem] and
    [varaFMModem]: whatever the descriptor, they are after the call what
    they were before. *)
Theorem Connect_keeps_vara_variables fuel s (st st' : State W) out :
Connect X config fuel s st = Some (out, st') →
varaHFModem st' = varaHFModem st ∧ varaFMModem st' = varaFMModem st.
Proof.
intros Hc. apply Connect_returns_inv in Hc as [[_ ->] | (t & fuel' & _ & _ & Hbody)]; [done|].
apply body_returns in Hbody as (_ & Hh & Hf & _). done.
Qed.

(** X3. Started with no dial in flight, [Connect] returns with no dial
    in flight: [dialing] is nil, every context it created has been
    cancelled, and the cancellation hook it leaves behind belongs to a
    cancelled context. *)
Theorem Connect_keeps_idle fuel s (st st' : State W) out :
idle st →
Connect X config fuel s st = Some (out, st') →
idle st'.
Proof.
intros Hidle Hc.
apply Connect_returns_inv in Hc as [[_ ->] | (t & fuel' & _ & _ & Hbody)]; [done|].
apply body_returns in Hbody as (_ & _ & _ & Hi & _). by apply Hi.
Qed.

(** X4. With no dial in flight, invoking the cancellation hook changes
    nothing at all: a hook left behind by a finished dial is a no-op. *)
Theorem stale_hook_is_noop (st : State W) :
idle st →
call X (dialCancelFunc st) st = (tt, st).
Proof.
intros (Hd & Hc & Hh). destruct st as [d a p vh vf hook n cancelled w tr]. simpl in *.
subst d. destruct Hh as [-> | (k & Hk & ->)]; [done|].
unfold call, set_dialing, context_cancel, bind. simpl.
by rewrite bool_decide_true by auto.
Qed.


(** X6. A descriptor without a (non-empty) [freq] parameter never
    retunes the rig: the call issues no SetFreq command and no QSX. *)
Theorem Connect_without_freq_never_tunes n s t url fuel (st st' : State W) out :
resolves config n s t →
ParseURL X t = inl url →
Values_Get (Params url) "freq" = "" →
Connect X config (n + S fuel) s st = Some (out, st') →
∃ es, trace st' = trace st ++ es ∧ none_of [KRigTune; KRevertLog] es = true.
Proof.
intros Hres Hparse Hfreq. rewrite (Connect_resolves X config n s t Hres).
intros Hbody. apply body_returns in Hbody as (_ & _ & _ & _ & es & Htr & _ & Hf & _).
exists es. split; [done|]. by apply (Hf url).
Qed.

(** X7. For a scheme other than ardop, pactor, varahf and varafm,
    [Connect] makes no call into any modem library; and only an ardop
    descriptor ever polls the busy channel. *)
Theorem Connect_modem_calls_by_scheme n s t url fuel (st st' : State W) out :
resolves config n s t →
ParseURL X t = inl url →
Connect X config (n + S fuel) s st = Some (out, st') →
∃ es,
  trace st' = trace st ++ es
  ∧ (has_modem (Scheme url) = false → none_of modem_kinds es = true)
  ∧ (Scheme url ≠ MethodArdop → none_of [KBusyPoll] es = true).
Proof.
intros Hres Hparse. rewrite (Connect_resolves X config n s t Hres).
intros Hbody. apply body_returns in Hbody as (_ & _ & _ & _ & es & Htr & Hm & _ & Hb & _).
exists es. split; [done|]. split; [apply (Hm url Hparse) | apply (Hb url Hparse)].
Qed.

(** X8. With the ignore-busy option set, or for a descriptor whose
    scheme is not ardop, [Connect] always comes back: two units of fuel
    beyond the alias chain are enough, whatever the collaborators
    answer. *)
Theorem Connect_returns n s t fuel (st : State W) :
resolves config n s t →
(IgnoreBusy config = true ∨ ∀ url, ParseURL X t = inl url → Scheme url ≠ MethodArdop) →
∃ success st', Connect X config (n + S (S fuel)) s st = Some (Returned success, st').
Proof.
intros Hres Hgate. rewrite (Connect_resolves X config n s t Hres).
assert (∃ out st', leave X (connectBody X config (S fuel) t [] st) = Some (out, st'))
  as (out & st' & Hbody).
{ unfold connectBody, bbind.
  destruct (connectPrepare_cases (S fuel) t st) as (r & ds & st1 & -> & Hr).
  destruct Hr as [(_ & (url & Hp & Hs) & Hf) | (es & _ & _ & _ & _ & _ & _ & _ & Hr)].
  - exfalso. destruct Hgate as [Hig | Hna]; [by specialize (Hf Hig) | by apply (Hna url)].
  - destruct Hr as [-> | (parsed & cf & _ & ->)]; [simpl; eauto|].
    destruct (connectDial_full t (dialled_descriptor config parsed) cf ds st1)
      as (r3 & st3 & es3 & -> & _ & _ & _ & _ & Hr3).
    destruct Hr3 as [-> | [-> | (-> & _)]]; simpl; eauto. }
rewrite Hbody. pose proof Hbody as Hb.
apply body_returns in Hb as (Hout & _). destruct out; [eauto | done].
Qed.

(** X9. An alias cycle makes [Connect] recurse without end: when the
    aliases lead from [s] back to [s], no amount of fuel lets the call
    return. *)
Theorem Connect_alias_cycle s :
alias_path config s s →
∀ fuel (st : State W), Connect X config fuel s st = None.
Proof.
intros Hcycle fuel.
assert (∀ x, alias_path config x s →
             x ≠ "" ∧ ∃ a, ConnectAliases config !! x = Some a ∧ alias_path config a s)
  as Hstep.
{ intros x Hx. inversion Hx as [x' a Hne Ha | x' a t' Hne Ha Hrest]; subst; eauto. }
assert (∀ x (st : State W), alias_path config x s → Connect X config fuel x st = None) as Hall.
{ induction fuel as [|fuel IH]; intros x st Hx; [done|].
  destruct (Hstep x Hx) as (Hne & a & Ha & Hrest).
  cbn [Connect]. rewrite decide_False by done. rewrite Ha. by apply IH. }
intros st. by apply Hall.
Qed.

(** X10. Without the ignore-busy option, a channel that reports busy at
    every poll keeps [waitBusy] in its loop for ever. *)
Theorem waitBusy_never_clear b (st : State W) :
IgnoreBusy config = false →
(∀ n, ans_Busy X b (world_after X (busy_rounds b false n) (world st)) = true) →
∀ fuel, waitBusy X config fuel b st = None.
Proof.
intros Hig Hbusy fuel. unfold waitBusy.
assert (∀ printed (st : State W),
           (∀ n, ans_Busy X b (world_after X (busy_rounds b printed n) (world st)) = true) →
           waitBusy_loop X config fuel b printed st = None) as Hall.
{ induction fuel as [|fuel IH]; intros printed st0 Hb; [done|].
  cbn [waitBusy_loop]. unfold TNC_Busy, ask.
  pose proof (Hb 0%nat) as H0. simpl in H0. rewrite H0, Hig, andb_false_r.
  apply IH. intros n. specialize (Hb (S n)).
  rewrite busy_rounds_S in Hb. unfold world_after in *. rewrite foldl_app in Hb.
  destruct printed; simpl in *; exact Hb. }
by apply Hall.
Qed.

(** X11. When [qsy] fails it hands back the no-op revert and has not
    slept for the rig to settle; and it has not commanded the rig at all,
    unless the error is the one reported by that very command. *)
Theorem qsy_failure method addr (st st' : State W) revert e :
qsy X method addr st = ((revert, Some e), st') →
revert = FnNoop
∧ ∃ es,
    trace st' = trace st ++ es
    ∧ none_of [KSleep; KRevertLog] es = true
    ∧ (none_of [KRigTune] es = true
       ∨ ∃ rig f, last es = Some (EvRigSetFreq rig f (Some e))).
Proof.
intros Hq.
destruct (qsy_cases method addr st) as (rev & err & stq & es & Hqsy & Htr & _ & Hk & Herr).
rewrite Hq in Hqsy. injection Hqsy as <- <- <-.
destruct Herr as (-> & Hs & Ht). split; [done|]. exists es. split; [done|]. split; [|done].
apply (none_of_union [KSleep] [KRevertLog]); [done|]. by eapply only_none_of; [|exact Hk].
Qed.

(** X12. Whatever makes the QSY fail, [Connect] gives up right there: it
    logs "Unable to QSY" with the error, defers no revert, and returns
    [false] after the status update, without dialling. *)
Theorem Connect_qsy_failure n s t fuel (st st0 st1 : State W) url ds0 revert e :
resolves config n s t →
connectPrologue X config t [] st = (inl url, ds0, st0) →
Values_Get (Params url) "freq" ≠ "" →
qsy X (Scheme url) (Values_Get (Params url) "freq") st0 = ((revert, Some e), st1) →
Connect X config (n + S fuel) s st
= Some (Returned false,
        emits X [EvLog (LogUnableToQSY e); EvSleep 1000; EvUpdateStatus] st1).
Proof.
intros Hres Hpro Hfreq Hqsy. rewrite (Connect_resolves X config n s t Hres).
destruct (connectPrologue_spec X config t st) as (r & st0' & es & Hpro' & _).
rewrite Hpro in Hpro'. injection Hpro' as <- -> <-.
unfold connectBody, connectPrepare, bbind. rewrite Hpro.
unfold connectQSY. rewrite decide_False by done. unfold bbind, lift. rewrite Hqsy.
reflexivity.
Qed.

(** X13. Radio-only mode on an ax25 or serial-tnc descriptor (callsign
    without SSID) is turned down before anything is contacted: the call
    logs that radio-only is not available for the scheme and returns
    [false]. *)
Theorem Connect_radio_only_unsupported n s t url fuel (st : State W) :
resolves config n s t →
ParseURL X t = inl url →
radioOnly config url = true →
hasSSID (MyCall config) = false →
Scheme url = MethodAX25 ∨ Scheme url = MethodSerialTNC →
Connect X config (n + S fuel) s st
= Some (Returned false,
        emits X [EvDebug t; EvLog (LogRadioOnlyNotAvailable (Scheme url));
                 EvSleep 1000; EvUpdateStatus] st).
Proof.
intros Hres Hparse Hradio Hssid Hscheme. rewrite (Connect_resolves X config n s t Hres).
unfold connectBody, connectPrepare, connectPrologue, bbind, defer, lift, emit.
rewrite Hparse. rewrite initTNCs_no_modem.
- unfold applyRadioOnly. rewrite radioOnly_applyDefaults, Hradio, Hssid.
  rewrite applyDefaults_Scheme, bool_decide_true by done. reflexivity.
- destruct Hscheme as [-> | ->]; vm_compute; intros Hin;
    repeat (apply elem_of_cons in Hin as [Hin|Hin]; [discriminate Hin|]);
    by apply elem_of_nil in Hin.
Qed.

(** X14. When the modem initialisation for the scheme of the descriptor
    reports an error, [Connect] logs it and returns [false] after the
    status update: no defaults, no QSY, no dial. *)
Theorem Connect_init_failure n s t url fuel (st st1 : State W) e :
resolves config n s t →
ParseURL X t = inl url →
(Scheme url = MethodArdop
 ∧ initArdopTNC X config (emits X [EvDebug t] st) = (Some e, st1))
∨ (Scheme url = MethodPactor
   ∧ initPactorModem X config (ptCmdInit url) (emits X [EvDebug t] st) = (Some e, st1))
∨ (Scheme url = MethodVaraHF
   ∧ initVaraModem X config (varaHFModem st) MethodVaraHF (VaraHF config)
       (emits X [EvDebug t] st) = (Some e, st1))
∨ (Scheme url = MethodVaraFM
   ∧ initVaraModem X config (varaFMModem st) MethodVaraFM (VaraFM config)
       (emits X [EvDebug t] st) = (Some e, st1)) →
Connect X config (n + S fuel) s st
= Some (Returned false, emits X [EvLog (LogError e); EvSleep 1000; EvUpdateStatus] st1).
Proof.
intros Hres Hparse Hinit. rewrite (Connect_resolves X config n s t Hres).
unfold connectBody, connectPrepare, connectPrologue, bbind, defer, lift.
change (emit X (EvDebug t) st) with (tt, emits X [EvDebug t] st).
rewrite Hparse. unfold initTNCs, init_or_return, bbind, lift, gets, ptCmdInit in *.
destruct Hinit as [[Hs Hi] | [[Hs Hi] | [[Hs Hi] | [Hs Hi]]]]; rewrite Hs.
- rewrite decide_True by done. by rewrite Hi.
- rewrite decide_False by done. rewrite decide_True by done. by rewrite Hi.
- rewrite !decide_False by done. rewrite decide_True by done.
  change (varaHFModem (emits X [EvDebug t] st)) with (varaHFModem st). by rewrite Hi.
- rewrite !decide_False by done. rewrite decide_True by done.
  change (varaFMModem (emits X [EvDebug t] st)) with (varaFMModem st). by rewrite Hi.
Qed.

(** X15. [initArdopTNC] keeps the registry in step: afterwards [adTNC]
    is the handle that the last [ardop.OpenTCP] of the call returned (or
    what it was, if the call opened nothing); a handle registered as the
    ardop dialer during the call is that [adTNC]; and when the call
    reports no error, [adTNC] is not nil. *)
Theorem initArdopTNC_registry (st : State W) :
∃ err st' es,
  initArdopTNC X config st = (err, st')
  ∧ trace st' = trace st ++ es
  ∧ adTNC st' = match last_ardop_open es with
                | Some r => opened_handle r
                | None => adTNC st
                end
  ∧ Forall (fun h => adTNC st' = Some h) (registered MethodArdop es)
  ∧ (err = None → is_Some (adTNC st')).
Proof.
unfold_modems. unfold_monad. simpl.
repeat (branch; simpl).
all: eexists _, _, _; split; [reflexivity|]; split; [trace_eq|].
all: try match goal with H : adTNC _ = _ |- _ => rewrite H end.
all: split; [reflexivity|]; split; [repeat constructor|].
all: first [by intros [=] | intros _; by eexists].
Qed.

(** X16. [initPactorModem] opens the modem exactly once.  Afterwards
    [pModem] is whatever [pactor.OpenModem] returned; the call reports no
    error exactly when that is a handle without an error, and then, and
    only then, it registers the handle as the pactor dialer. *)
Theorem initPactorModem_registry cmdlineinit (st : State W) :
∃ err st' es h openErr,
  initPactorModem X config cmdlineinit st = (err, st')
  ∧ trace st' = trace st ++ es
  ∧ filter (fun e => kind e = KModemOpen) es
    = [EvPactorOpenModem (PactorConfig.Path (Pactor config))
         (PactorConfig.Baudrate (Pactor config)) (MyCall config)
         (PactorConfig.InitScript (Pactor config)) cmdlineinit h openErr]
  ∧ pModem st' = h
  ∧ (err = None ↔ is_Some h ∧ openErr = None)
  ∧ registered MethodPactor es = match err with
                                 | Some _ => []
                                 | None => option_list h
                                 end.
Proof.
unfold_modems. unfold_monad. simpl.
repeat (branch; simpl).
all: eexists _, _, _, _, _; split; [reflexivity|]; split; [trace_eq|].
all: split; [reflexivity|]; split; [reflexivity|]; split; [|reflexivity].
all: split; [try done; intros _; split; eauto | try done; intros [[? ?] ?]; congruence].
Qed.

(** X17. [hasSSID] holds exactly for the strings that contain a hyphen,
    anywhere. *)
Theorem hasSSID_spec str :
hasSSID str = true ↔ ∃ a b, str = a +:+ "-" +:+ b.
Proof.
unfold hasSSID. induction str as [|c str IH].
- simpl. split; [done|]. intros (a & b & H). by destruct a.
- cbn [strings_Contains String.prefix].
  destruct (Ascii.ascii_dec _ c) as [<-|Hc].
  + assert (String.prefix "" str = true) as -> by (by destruct str).
    split; [|done]. intros _. by exists "", str.
  + rewrite IH. split.
    * intros (a & b & ->). by exists (String c a), b.
    * intros (a & b & H). destruct a as [|c' a]; simpl in H.
      -- injection H as -> _. done.
      -- injection H as _ ->. eauto.
Qed.

(** X18. Applying the defaults never overrides what the descriptor
    says: an explicit user stays, and with an explicit host the
    parameters stay too; and applying the defaults twice is the same as
    applying them once. *)
Theorem applyDefaults_stable url :
(∀ i, User url = Some i → User (applyDefaults config url) = Some i)
∧ (Host url ≠ "" →
   Host (applyDefaults config url) = Host url
   ∧ Params (applyDefaults config url) = Params url)
∧ applyDefaults config (applyDefaults config url) = applyDefaults config url.
Proof.
split; [|split].
- intros i Hi. destruct url as [sc ho us ta di pa]. simpl in Hi. subst us.
  unfold applyDefaults. simpl. repeat (branch; simpl); reflexivity.
- intros Hh. unfold applyDefaults. destruct (User url); simpl; by rewrite decide_False.
- destruct url as [sc ho us ta di pa].
  remember (applyDefaults config (mkURL sc ho us ta di pa)) as d eqn:Hd.
  unfold applyDefaults in *.
  revert Hd.
  generalize (AX25_Port config) (SerialTNC config) (MyCall config).
  intros ax [path hbaud sbaud] mycall.
  cbn [SerialTNCConfig.Path SerialTNCConfig.HBaud SerialTNCConfig.SerialBaud].
  generalize (fmt_Sprint hbaud) (fmt_Sprint sbaud). intros hb sb.
  generalize (0 <? hbaud) (0 <? sbaud). intros bh bs Hd.
  assert (Hc : ∃ h i p, d = mkURL sc h (Some i) ta di p
     ∧ (h = "" → sc = MethodAX25 → ax = "")
     ∧ (h = "" → sc ≠ MethodAX25 → sc = MethodSerialTNC →
          path = "" ∧ (bh = true → <["hbaud" := [hb]]> p = p)
          ∧ (bs = true → <["serial_baud" := [sb]]> p = p))).
  { subst d. unfold SetParam, SetHost, SetUser, Values_Set.
    destruct us as [i|]; cbn [Scheme Host User Target Digis Params];
    (destruct (decide (ho = "")) as [->|Hho]; cbn [Scheme Host User Target Digis Params];
     [|eexists _, _, _; split; [reflexivity|]; split; intros; congruence]);
    (destruct (decide (sc = MethodAX25)) as [->|Hax];
     cbn [Scheme Host User Target Digis Params];
     [eexists _, _, _; split; [reflexivity|]; split; intros; congruence|]);
    (destruct (decide (sc = MethodSerialTNC)) as [->|Hser];
     [|eexists _, _, _; split; [reflexivity|]; split; intros; congruence]);
    destruct bh, bs; cbn [Scheme Host User Target Digis Params];
    eexists _, _, _; (split; [reflexivity|]); (split; [intros; congruence|]);
    intros -> _ _; (split; [reflexivity|]); split; intros; try discriminate;
    apply map_eq; intros k; rewrite !lookup_insert; repeat (destruct (decide _));
    congruence. }
  clear Hd. destruct Hc as (h & i & p & -> & Hax & Hser).
  unfold SetParam, SetHost, SetUser, Values_Set. cbn [Scheme Host User Target Digis Params].
  destruct (decide (h = "")) as [->|Hh]; [|reflexivity].
  destruct (decide (sc = MethodAX25)) as [->|Hn]; cbn [Scheme Host User Target Digis Params].
  { by rewrite Hax. }
  destruct (decide (sc = MethodSerialTNC)) as [->|Hs]; [|reflexivity].
  destruct (Hser eq_refl Hn eq_refl) as (-> & Hb & Hs).
  destruct bh, bs; cbn [Scheme Host User Target Digis Params]; rewrite ?Hb, ?Hs;
    reflexivity.
Qed.

End More.

Section EhawProofs.
Import Ehaw.

Lemma getMsgIds_map_lookup before :
∀ (m : gmap string ()) x,
  foldl (fun mb y => <[y := ()]> mb) m before !! x
  = if decide (x ∈ before) then Some () else m !! x.
Proof.
induction before as [|y l IH]; intros m x; simpl.
- destruct (decide (x ∈ [])) as [Hin|_]; [by apply elem_of_nil in Hin | done].
- rewrite IH.
  destruct (decide (x ∈ y :: l)) as [Hin|Hnin]; destruct (decide (x ∈ l)) as [Hl|Hl];
    try done.
  + apply elem_of_cons in Hin as [->|?]; [|done]. by rewrite lookup_insert_eq.
  + exfalso. apply Hnin. by apply elem_of_cons; right.
  + rewrite lookup_insert_ne; [done|]. intros ->. apply Hnin. by apply elem_of_cons; left.
Qed.

Lemma getMsgIds_collect (mb : gmap string ()) after :
∀ acc,
  foldl (fun newMsgId x => match mb !! x with
                           | Some _ => newMsgId
                           | None => newMsgId ++ [x]
                           end) acc after
  = acc ++ filter (fun x => mb !! x = None) after.
Proof.
induction after as [|x l IH]; intros acc; simpl.
- by rewrite app_nil_r.
- rewrite IH. rewrite filter_cons. destruct (mb !! x) as [[]|] eqn:Hx.
  + by rewrite decide_False.
  + rewrite decide_True by done. by rewrite <- app_assoc.
Qed.

(** X19. [getMsgIds] returns the entries of [after] that do not occur
    in [before], in the order of [after] and as often as they occur
    there. *)
Theorem getMsgIds_spec (before after : list string) :
getMsgIds before after = filter (fun x => x ∉ before) after.
Proof.
unfold getMsgIds. rewrite getMsgIds_collect. simpl.
apply list_filter_iff. intros x. rewrite getMsgIds_map_lookup.
destruct (decide (x ∈ before)); split; intros H; try done.
Qed.

(** X20. When the folder holds exactly one message that it did not hold
    before, [getMsgIds] returns that message alone, wherever it stands
    in the listing. *)
Theorem getMsgIds_single_new (before l1 l2 : list string) x :
x ∉ before →
(∀ y, y ∈ l1 ++ l2 → y ∈ before) →
getMsgIds before (l1 ++ x :: l2) = [x].
Proof.
intros Hx Hold.
assert (getMsgIds before (l1 ++ x :: l2) = filter (fun y => y ∉ before) (l1 ++ x :: l2))
  as ->.
{ unfold getMsgIds. rewrite getMsgIds_collect. simpl.
  apply list_filter_iff. intros y. rewrite getMsgIds_map_lookup.
  destruct (decide (y ∈ before)); split; intros H; done. }
assert (∀ l, (∀ y, y ∈ l → y ∈ before) → filter (fun y => y ∉ before) l = []) as Hnone.
{ induction l as [|y l IH]; intros Hl; [done|].
  rewrite filter_cons, decide_False.
  - apply IH. intros z Hz. apply Hl. by apply elem_of_cons; right.
  - intros Hy. apply Hy, Hl. by apply elem_of_cons; left. }
rewrite filter_app, filter_cons, decide_True by done.
rewrite !Hnone; [done| |].
- intros y Hy. apply Hold, elem_of_app. by right.
- intros y Hy. apply Hold, elem_of_app. by left.
Qed.

(** *** Trimming *)

Lemma trimLeft_first cutset s :
∀ c, first_byte (trimLeft cutset s) = Some c → in_cutset cutset c = false.
Proof.
induction s as [|a s IH]; intros c; simpl; [done|].
destruct (in_cutset cutset a) eqn:Ha; [apply IH|]. simpl. by intros [= <-].
Qed.

Lemma trimLeft_last cutset s :
∀ d, last_byte (trimLeft cutset s) = Some d → last_byte s = Some d.
Proof.
induction s as [|a s IH]; intros d; simpl; [done|].
destruct (in_cutset cutset a) eqn:Ha; [|done].
intros Hd. specialize (IH d Hd). destruct s; [done|exact IH].
Qed.

Lemma trimRight_last cutset s :
∀ d, last_byte (trimRight cutset s) = Some d → in_cutset cutset d = false.
Proof.
induction s as [|a s IH]; intros d; simpl; [done|].
destruct (trimRight cutset s) as [|b t] eqn:Ht.
- destruct (in_cutset cutset a) eqn:Ha; simpl; [done|]. by intros [= <-].
- simpl. apply IH.
Qed.

Lemma trimLeft_clean cutset s c :
first_byte s = Some c → in_cutset cutset c = false → trimLeft cutset s = s.
Proof. destruct s as [|a s]; simpl; [done|]. intros [= ->] ->. done. Qed.

Lemma trimRight_clean cutset s :
∀ d, last_byte s = Some d → in_cutset cutset d = false → trimRight cutset s = s.
Proof.
induction s as [|a s IH]; intros d; simpl; [done|].
destruct s as [|b s].
- intros [= ->] ->. done.
- intros Hd Hin. rewrite (IH d Hd Hin). done.
Qed.

Lemma trimRight_all cutset t :
forallb (in_cutset cutset) (String.list_ascii_of_string t) = true →
trimRight cutset t = "".
Proof.
induction t as [|a t IH]; simpl; [done|].
intros [Ha Ht]%andb_prop. by rewrite IH, Ha.
Qed.

Lemma trimRight_app cutset s t :
forallb (in_cutset cutset) (String.list_ascii_of_string t) = true →
trimRight cutset (s +:+ t) = trimRight cutset s.
Proof.
intros Ht. induction s as [|a s IH]; simpl; [by apply trimRight_all|].
by rewrite IH.
Qed.

(** *** Extension test *)

Lemma substring_all s : String.substring 0 (String.length s) s = s.
Proof. induction s as [|a s IH]; simpl; [done|]. by rewrite IH. Qed.

Lemma substring_suffix s t :
String.substring (String.length s) (String.length t) (s +:+ t) = t.
Proof. induction s as [|a s IH]; simpl; [apply substring_all|exact IH]. Qed.

Lemma substring_prefix s t :
String.substring 0 (String.length s) (s +:+ t) = s.
Proof.
induction s as [|a s IH]; simpl; [by destruct t|]. by rewrite IH.
Qed.

Lemma string_length_app s t :
String.length (s +:+ t) = (String.length s + String.length t)%nat.
Proof. induction s as [|a s IH]; simpl; [done|]. by rewrite IH. Qed.

Lemma has_b2f_extension_app stem :
stem ≠ "" → has_b2f_extension (stem +:+ ".b2f") = true.
Proof.
intros Hne. unfold has_b2f_extension. rewrite string_length_app. simpl String.length.
replace (String.length stem + 4 - 4)%nat with (String.length stem) by lia.
pose proof (substring_suffix stem ".b2f") as Hsuf. cbn [String.length] in Hsuf.
rewrite Hsuf. simpl.
apply andb_true_intro. split; [|done].
apply Nat.ltb_lt. destruct stem; [done|simpl; lia].
Qed.

(** X21. No message identifier that [getMsgBoxList] returns begins or
    ends with one of the bytes '.', 'b', '2', 'f': [bytes.Trim] takes
    the characters of the extension off both ends of the file name, not
    just the extension off its end. *)
Theorem getMsgBoxList_trims_both_ends fs MailboxPath MyCall msgBox mid :
mid ∈ (getMsgBoxList fs MailboxPath MyCall msgBox).1.1 →
(∀ c, first_byte mid = Some c → in_cutset ".b2f" c = false)
∧ (∀ d, last_byte mid = Some d → in_cutset ".b2f" d = false).
Proof.
unfold getMsgBoxList.
destruct (fs _) as [err | names [err|]]; simpl; try (by intros ?%elem_of_nil).
assert (∀ acc,
           (∀ m, m ∈ acc → ∃ name, m = bytes_Trim name ".b2f") →
           ∀ m, m ∈ foldl (fun oMsgs name =>
                             if has_b2f_extension name
                             then oMsgs ++ [bytes_Trim name ".b2f"] else oMsgs) acc names →
                ∃ name, m = bytes_Trim name ".b2f") as Hall.
{ induction names as [|n l IH]; intros acc Hacc m; simpl; [apply Hacc|].
  apply IH. destruct (has_b2f_extension n); [|done].
  intros m' [?|Hm]%elem_of_app; [eauto|].
  apply list_elem_of_singleton in Hm as ->. eauto. }
intros Hin. apply Hall in Hin as [name ->]; [|by intros m ?%elem_of_nil].
unfold bytes_Trim. split.
- apply trimLeft_first.
- intros d Hd. apply trimLeft_last in Hd. by apply trimRight_last in Hd.
Qed.

Lemma bytes_Trim_clean_stem stem :
clean_stem stem = true → bytes_Trim (stem +:+ ".b2f") ".b2f" = stem.
Proof.
unfold bytes_Trim. rewrite trimRight_app by done. unfold clean_stem.
destruct (first_byte stem) as [c|] eqn:Hc; [|done].
destruct (last_byte stem) as [d|] eqn:Hd; [|done].
intros [Hc'%negb_true_iff Hd'%negb_true_iff]%andb_prop.
rewrite (trimRight_clean _ _ _ Hd Hd'). by apply (trimLeft_clean _ _ c).
Qed.

(** X22. A non-empty identifier comes back from its file name unchanged
    exactly when neither its first nor its last byte is one of '.', 'b',
    '2', 'f'. *)
Theorem bytes_Trim_b2f_roundtrip stem :
stem ≠ "" →
(bytes_Trim (stem +:+ ".b2f") ".b2f" = stem ↔ clean_stem stem = true).
Proof.
intros Hne. unfold bytes_Trim. rewrite trimRight_app by done. split.
- intros Heq. unfold clean_stem.
  destruct (first_byte stem) as [c|] eqn:Hc; [|by destruct stem].
  destruct (last_byte stem) as [d|] eqn:Hd.
  + rewrite <- Heq in Hc, Hd.
    rewrite (trimLeft_first _ _ _ Hc).
    apply trimLeft_last in Hd. by rewrite (trimRight_last _ _ _ Hd).
  + exfalso. clear -Hne Hd. induction stem as [|a s IH]; [done|].
    destruct s; [done|]. apply IH; [done|exact Hd].
- intros Hclean. pose proof (bytes_Trim_clean_stem stem Hclean) as Htrim.
  unfold bytes_Trim in Htrim. by rewrite trimRight_app in Htrim.
Qed.

(** X23. When the folder holds one file "<mid>.b2f" for each of a list
    of clean identifiers, and reading it succeeds, [getMsgBoxList]
    returns exactly these identifiers, in the order of the listing. *)
Theorem getMsgBoxList_roundtrip fs MailboxPath MyCall msgBox mids :
fs (MailboxPath +:+ backslash +:+ MyCall +:+ backslash +:+ msgBox)
= Listed (map (fun mid => mid +:+ ".b2f") mids) None →
forallb clean_stem mids = true →
getMsgBoxList fs MailboxPath MyCall msgBox = (mids, None, []).
Proof.
intros Hfs Hclean. unfold getMsgBoxList. rewrite Hfs.
assert (∀ acc,
           foldl (fun oMsgs name =>
                    if has_b2f_extension name
                    then oMsgs ++ [bytes_Trim name ".b2f"] else oMsgs) acc
                 (map (fun mid => mid +:+ ".b2f") mids)
           = acc ++ mids) as ->; [|done].
clear Hfs. induction mids as [|m l IH]; intros acc; simpl; [by rewrite app_nil_r|].
simpl in Hclean. apply andb_prop in Hclean as [Hm Hl].
assert (m ≠ "") as Hne by (intros ->; discriminate Hm).
rewrite has_b2f_extension_app by done.
rewrite (bytes_Trim_clean_stem m Hm).
rewrite IH by done. by rewrite <- app_assoc.
Qed.

(** X24. [getEhawCfg] looks for "eHaW_config.json" beside the
    configuration file: it cuts the last eleven bytes off the
    configuration path, whatever they are, and panics on a shorter path.
    A read error leaves [ehawCfg] as it was; a file without an "eHaW"
    section resets it to the empty configuration without any error. *)
Theorem getEhawCfg_outcomes ReadFile Unmarshal (ehawCfg : ehawConfig) :
(∀ path, (String.length path < 11)%nat →
         getEhawCfg ReadFile Unmarshal path ehawCfg = None)
∧ (∀ dir name err,
      String.length name = 11%nat →
      ReadFile (dir +:+ "eHaW_config.json") = inr err →
      getEhawCfg ReadFile Unmarshal (dir +:+ name) ehawCfg = Some (Some err, ehawCfg))
∧ (∀ dir name data eCfg,
      String.length name = 11%nat →
      ReadFile (dir +:+ "eHaW_config.json") = inl data →
      Unmarshal data = (eCfg, None) →
      eCfg !! "eHaW" = None →
      getEhawCfg ReadFile Unmarshal (dir +:+ name) ehawCfg
      = Some (None, mkEhawConfig "" "" "" "")).
Proof.
assert (∀ dir name, String.length name = 11%nat →
          (String.length (dir +:+ name) <? String.length "config.json")%nat = false
          ∧ String.substring 0 (String.length (dir +:+ name) - String.length "config.json")
              (dir +:+ name) = dir) as Hpath.
{ intros dir name Hn. rewrite string_length_app, Hn. simpl String.length. split.
  - apply Nat.ltb_ge. lia.
  - replace (String.length dir + 11 - 11)%nat with (String.length dir) by lia.
    apply substring_prefix. }
split; [|split].
- intros path Hlen. unfold getEhawCfg. simpl String.length.
  by rewrite (proj2 (Nat.ltb_lt _ _) Hlen).
- intros dir name err Hn Hread. unfold getEhawCfg.
  destruct (Hpath dir name Hn) as [-> ->]. by rewrite Hread.
- intros dir name data eCfg Hn Hread Hun Hkey. unfold getEhawCfg.
  destruct (Hpath dir name Hn) as [-> ->]. by rewrite Hread, Hun, Hkey.
Qed.

(** *** Recipients *)

Lemma strings_Split_cons s sep : ∃ piece pieces, strings_Split s sep = piece :: pieces.
Proof.
induction s as [|c s IH]; simpl; [eauto|].
destruct (Ascii.eqb c sep); [eauto|]. destruct IH as (p & ps & ->). eauto.
Qed.

Lemma strings_Split_Join s sep :
strings_Join (strings_Split s sep) (String sep EmptyString) = s.
Proof.
induction s as [|c s IH]; simpl; [done|].
destruct (strings_Split_cons s sep) as (p & ps & Hs). rewrite Hs in *.
destruct (Ascii.eqb c sep) eqn:Hc.
- apply Ascii.eqb_eq in Hc as ->.
  change (strings_Join ("" :: p :: ps) (String sep ""))
    with ("" +:+ String sep "" +:+ strings_Join (p :: ps) (String sep "")).
  by rewrite IH.
- destruct ps as [|q ps].
  + simpl in *. by rewrite IH.
  + change (strings_Join (String c p :: q :: ps) (String sep ""))
      with (String c (p +:+ String sep "" +:+ strings_Join (q :: ps) (String sep ""))).
    change (strings_Join (p :: q :: ps) (String sep ""))
      with (p +:+ String sep "" +:+ strings_Join (q :: ps) (String sep "")) in IH.
    by rewrite IH.
Qed.

Lemma strings_Split_pieces s sep :
Forall (fun piece => count_byte sep piece = 0%nat) (strings_Split s sep).
Proof.
induction s as [|c s IH]; simpl.
- by constructor.
- destruct (Ascii.eqb c sep) eqn:Hc.
  + by constructor.
  + destruct (strings_Split s sep) as [|p ps]; [constructor; [|done]|].
    * unfold count_byte. simpl. rewrite filter_cons, decide_False; [done|].
      intros ->. by rewrite Ascii.eqb_refl in Hc.
    * inversion IH as [|? ? Hp Hps]; subst. constructor; [|done].
      unfold count_byte in *. simpl. rewrite filter_cons, decide_False; [done|].
      intros ->. by rewrite Ascii.eqb_refl in Hc.
Qed.

Lemma strings_Split_length s sep :
length (strings_Split s sep) = S (count_byte sep s).
Proof.
induction s as [|c s IH]; simpl; [done|].
unfold count_byte in *. simpl. rewrite filter_cons.
destruct (Ascii.eqb c sep) eqn:Hc.
- apply Ascii.eqb_eq in Hc as ->. rewrite decide_True by done. simpl. by rewrite IH.
- rewrite decide_False by (intros ->; by rewrite Ascii.eqb_refl in Hc).
  destruct (strings_Split s sep) as [|p ps]; [done|]. exact IH.
Qed.

Lemma foldl_AddTo (r : list string) acc :
foldl (fun calls to => calls ++ [CallAddTo to]) acc r = acc ++ map CallAddTo r.
Proof.
revert acc. induction r as [|x r IH]; intros acc; simpl; [by rewrite app_nil_r|].
by rewrite IH, <- app_assoc.
Qed.

(** X25. [getMsgIds] returns nothing exactly when every entry of [after]
    already occurs in [before]. *)
Theorem getMsgIds_empty_iff (before after : list string) :
getMsgIds before after = [] ↔ ∀ x, x ∈ after → x ∈ before.
Proof.
assert (getMsgIds before after = filter (fun y => y ∉ before) after) as ->.
{ unfold getMsgIds. rewrite getMsgIds_collect. simpl.
  apply list_filter_iff. intros y. rewrite getMsgIds_map_lookup.
  destruct (decide (y ∈ before)); split; intros H; done. }
induction after as [|a l IH].
- split; [|done]. by intros _ x ?%elem_of_nil.
- rewrite filter_cons. destruct (decide (a ∉ before)) as [Ha|Ha].
  + split; [done|]. intros H. exfalso. apply Ha, H. by left.
  + rewrite IH. split.
    * intros Hl x [->|Hx]%elem_of_cons; [|by apply Hl].
      by destruct (decide (a ∈ before)).
    * intros Hl x Hx. apply Hl. by right.
Qed.

(** X26. [ehawComposeMessage] adds one recipient per piece of the
    recipient string between semicolons, in order and empty pieces
    included: joined with semicolons the addresses give back the
    recipient string, none of them contains a semicolon, and there is one
    more of them than there are semicolons. *)
Theorem ehawComposeMessage_recipients MyCall postMessage subject recipients body err :
∃ addrs,
  ehawComposeMessage MyCall postMessage subject recipients body err
  = ([CallNewMessage MyCall; CallSetFrom MyCall]
       ++ map CallAddTo addrs
       ++ [CallSetSubject subject; CallSetBody body; CallPostMessage],
     postMessage err)
  ∧ strings_Join addrs ";" = recipients
  ∧ Forall (fun addr => count_byte semicolon addr = 0%nat) addrs
  ∧ length addrs = S (count_byte semicolon recipients).
Proof.
exists (strings_Split recipients semicolon). split; [|split; [|split]].
- unfold ehawComposeMessage. cbv zeta. by rewrite foldl_AddTo.
- apply (strings_Split_Join recipients semicolon).
- apply strings_Split_pieces.
- apply strings_Split_length.
Qed.

(** A trailing semicolon adds a recipient with the empty address. *)
Example ehawComposeMessage_trailing_semicolon :
(ehawComposeMessage "KO2F" id "Welfare" "W1AW;N0CALL;" "All well." None).1
= [CallNewMessage "KO2F"; CallSetFrom "KO2F"; CallAddTo "W1AW"; CallAddTo "N0CALL";
   CallAddTo ""; CallSetSubject "Welfare"; CallSetBody "All well."; CallPostMessage].
Proof. vm_compute; reflexivity. Qed.

End EhawProofs.

(** ** The further properties at work in the lab *)

Lemma Connect_never_panics_witness :
  Connect (Lab.external Lab.success) Runs.plain 6 "ardop:///LA1B?freq=7100" Runs.start_busy
  = Some (Returned true,
          Runs.after Lab.success Runs.plain 6 "ardop:///LA1B?freq=7100" Runs.start_busy)
  ∧ ∃ success, Returned true = Returned success.
Proof.
  split; [vm_compute; reflexivity|].
  apply (Connect_never_panics (Lab.external Lab.success) Runs.plain 6
           "ardop:///LA1B?freq=7100" Runs.start_busy
           (Runs.after Lab.success Runs.plain 6 "ardop:///LA1B?freq=7100" Runs.start_busy)).
  vm_compute; reflexivity.
Defined.

Lemma Connect_keeps_vara_variables_witness :
  Connect (Lab.external Lab.success) Runs.plain 5 "varahf:///LA1B" Runs.start
  = Some (Returned true, Runs.after_vara1)
  ∧ varaHFModem Runs.after_vara1 = varaHFModem Runs.start
  ∧ varaFMModem Runs.after_vara1 = varaFMModem Runs.start.
Proof.
  split; [vm_compute; reflexivity|].
  apply (Connect_keeps_vara_variables (Lab.external Lab.success) Runs.plain 5
           "varahf:///LA1B" Runs.start Runs.after_vara1 (Returned true)).
  vm_compute; reflexivity.
Defined.

Lemma Connect_keeps_idle_witness :
  idle Runs.start
  ∧ Connect (Lab.external Lab.cancelled) Runs.plain 6 "home" Runs.start
    = Some (Returned false, Runs.after Lab.cancelled Runs.plain 6 "home" Runs.start)
  ∧ idle (Runs.after Lab.cancelled Runs.plain 6 "home" Runs.start).
Proof.
  assert (idle Runs.start) as Hidle.
  { split; [reflexivity|]. split; [|left; reflexivity].
    intros k Hk. vm_compute in Hk. lia. }
  split; [exact Hidle|]. split; [vm_compute; reflexivity|].
  apply (Connect_keeps_idle (Lab.external Lab.cancelled) Runs.plain 6 "home" Runs.start
           (Runs.after Lab.cancelled Runs.plain 6 "home" Runs.start) (Returned false) Hidle).
  vm_compute; reflexivity.
Defined.

Lemma stale_hook_is_noop_witness :
  dialCancelFunc Runs.after_home = FnCancelDial 0
  ∧ idle Runs.after_home
  ∧ call (Lab.external Lab.success) (dialCancelFunc Runs.after_home) Runs.after_home
    = (tt, Runs.after_home).
Proof.
  assert (idle Runs.after_home) as Hidle.
  { split; [vm_compute; reflexivity|]. split.
    - intros k Hk. vm_compute in Hk.
      replace (ctx_cancelled Runs.after_home) with [0%nat] by (vm_compute; reflexivity).
      replace k with 0%nat by lia. constructor.
    - right. exists 0%nat. split; [vm_compute; lia | vm_compute; reflexivity]. }
  split; [vm_compute; reflexivity|]. split; [exact Hidle|].
  apply (stale_hook_is_noop (Lab.external Lab.success) Runs.after_home Hidle).
Defined.


Lemma Connect_without_freq_never_tunes_witness :
  ∃ es,
    trace (Runs.after Lab.success Runs.plain 5 "home" Runs.start) = trace Runs.start ++ es
    ∧ none_of [KRigTune; KRevertLog] es = true.
Proof.
  apply (Connect_without_freq_never_tunes (Lab.external Lab.success) Runs.plain 1 "home"
           "telnet://LA1B@host:8772" (Lab.url "telnet" "LA1B" []) 3 Runs.start
           (Runs.after Lab.success Runs.plain 5 "home" Runs.start) (Returned true)).
  - eapply resolves_alias; [done | reflexivity |].
    apply resolves_here; [done | reflexivity].
  - reflexivity.
  - reflexivity.
  - vm_compute; reflexivity.
Defined.

Lemma Connect_modem_calls_by_scheme_witness :
  ∃ es,
    trace (Runs.after Lab.success Runs.plain 4 "telnet://LA1B@host:8772?radio_only=true"
             Runs.start)
    = trace Runs.start ++ es
    ∧ (has_modem "telnet" = false → none_of modem_kinds es = true)
    ∧ ("telnet" ≠ MethodArdop → none_of [KBusyPoll] es = true).
Proof.
  apply (Connect_modem_calls_by_scheme (Lab.external Lab.success) Runs.plain 0
           "telnet://LA1B@host:8772?radio_only=true" "telnet://LA1B@host:8772?radio_only=true"
           (Lab.url "telnet" "LA1B" [("radio_only", ["true"])]) 3 Runs.start
           (Runs.after Lab.success Runs.plain 4 "telnet://LA1B@host:8772?radio_only=true"
              Runs.start) (Returned true)).
  - apply resolves_here; [done | reflexivity].
  - reflexivity.
  - vm_compute; reflexivity.
Defined.

Lemma Connect_returns_witness :
  IgnoreBusy Runs.impatient = true
  ∧ ∃ success st',
      Connect (Lab.external Lab.success) Runs.impatient (0 + S (S 0)) "ardop:///LA1B"
        Runs.start_busy
      = Some (Returned success, st').
Proof.
  split; [reflexivity|].
  apply (Connect_returns (Lab.external Lab.success) Runs.impatient 0 "ardop:///LA1B"
           "ardop:///LA1B" 0 Runs.start_busy).
  - apply resolves_here; [done | reflexivity].
  - left. reflexivity.
Defined.

Lemma Connect_alias_cycle_witness :
  alias_path Runs.plain "loop" "loop"
  ∧ ∀ fuel (st : State Lab.World),
      Connect (Lab.external Lab.success) Runs.plain fuel "loop" st = None.
Proof.
  assert (alias_path Runs.plain "loop" "loop") as Hcycle.
  { apply alias_one; [done | reflexivity]. }
  split; [exact Hcycle|].
  exact (Connect_alias_cycle (Lab.external Lab.success) Runs.plain "loop" Hcycle).
Defined.

Lemma waitBusy_never_clear_witness :
  IgnoreBusy Runs.plain = false
  ∧ ∀ fuel, waitBusy Trials.jammed Runs.plain fuel 1%nat Runs.start = None.
Proof.
  split; [reflexivity|].
  apply (waitBusy_never_clear Trials.jammed Runs.plain 1%nat Runs.start).
  - reflexivity.
  - intros n. reflexivity.
Defined.

Lemma qsy_failure_witness :
  qsy (Lab.external Lab.success) "telnet" "14.1" Runs.start
  = ((FnNoop, Some (ErrNew "invalid syntax")),
     emits (Lab.external Lab.success)
       [EvLog (LogQSY "telnet" "14.1"); EvRigGetFreq 0%nat 14100000 None] Runs.start)
  ∧ ∃ es,
      trace (emits (Lab.external Lab.success)
               [EvLog (LogQSY "telnet" "14.1"); EvRigGetFreq 0%nat 14100000 None] Runs.start)
      = trace Runs.start ++ es
      ∧ none_of [KSleep; KRevertLog] es = true
      ∧ (none_of [KRigTune] es = true
         ∨ ∃ rig f, last es = Some (EvRigSetFreq rig f (Some (ErrNew "invalid syntax")))).
Proof.
  split; [vm_compute; reflexivity|].
  apply (qsy_failure (Lab.external Lab.success) "telnet" "14.1" Runs.start
           (emits (Lab.external Lab.success)
              [EvLog (LogQSY "telnet" "14.1"); EvRigGetFreq 0%nat 14100000 None] Runs.start)
           FnNoop (ErrNew "invalid syntax")).
  vm_compute; reflexivity.
Defined.

Lemma Connect_qsy_failure_witness :
  Connect (Lab.external Lab.no_rig) Runs.plain (0 + S 3) "telnet://LA1B@host:8772?freq=7100"
    Runs.start
  = Some (Returned false,
          emits (Lab.external Lab.no_rig)
            [EvLog (LogUnableToQSY (rig_not_loaded "rig")); EvSleep 1000; EvUpdateStatus]
            (emits (Lab.external Lab.no_rig) [EvDebug "telnet://LA1B@host:8772?freq=7100"]
               Runs.start)).
Proof.
  apply (Connect_qsy_failure (Lab.external Lab.no_rig) Runs.plain 0
           "telnet://LA1B@host:8772?freq=7100" "telnet://LA1B@host:8772?freq=7100" 3
           Runs.start
           (emits (Lab.external Lab.no_rig) [EvDebug "telnet://LA1B@host:8772?freq=7100"]
              Runs.start)
           (emits (Lab.external Lab.no_rig) [EvDebug "telnet://LA1B@host:8772?freq=7100"]
              Runs.start)
           Trials.telnet_freq_url [FnStatusHack] FnNoop (rig_not_loaded "rig")).
  - apply resolves_here; [done | reflexivity].
  - vm_compute; reflexivity.
  - vm_compute. discriminate.
  - vm_compute; reflexivity.
Defined.

Lemma Connect_radio_only_unsupported_witness :
  radioOnly Runs.plain (Lab.url "ax25" "LA1B" [("radio_only", ["true"])]) = true
  ∧ hasSSID (MyCall Runs.plain) = false
  ∧ Connect Trials.packet Runs.plain (0 + S 3) "ax25:///LA1B?radio_only=true" Runs.start
    = Some (Returned false,
            emits Trials.packet
              [EvDebug "ax25:///LA1B?radio_only=true";
               EvLog (LogRadioOnlyNotAvailable "ax25"); EvSleep 1000; EvUpdateStatus]
              Runs.start).
Proof.
  split; [vm_compute; reflexivity|]. split; [vm_compute; reflexivity|].
  apply (Connect_radio_only_unsupported Trials.packet Runs.plain 0
           "ax25:///LA1B?radio_only=true" "ax25:///LA1B?radio_only=true"
           (Lab.url "ax25" "LA1B" [("radio_only", ["true"])]) 3 Runs.start).
  - apply resolves_here; [done | reflexivity].
  - reflexivity.
  - vm_compute; reflexivity.
  - vm_compute; reflexivity.
  - left. reflexivity.
Defined.

Lemma Connect_init_failure_witness :
  ∃ e st1,
    initArdopTNC (Lab.external Lab.success) Trials.ptt_without_rig
      (emits (Lab.external Lab.success) [EvDebug "ardop:///LA1B"] Runs.start)
    = (Some e, st1)
    ∧ adTNC st1 = Some 1%nat
    ∧ Connect (Lab.external Lab.success) Trials.ptt_without_rig (0 + S 3) "ardop:///LA1B"
        Runs.start
      = Some (Returned false,
              emits (Lab.external Lab.success)
                [EvLog (LogError e); EvSleep 1000; EvUpdateStatus] st1).
Proof.
  eexists _, _. split; [vm_compute; reflexivity|]. split; [reflexivity|].
  apply (Connect_init_failure (Lab.external Lab.success) Trials.ptt_without_rig 0
           "ardop:///LA1B" "ardop:///LA1B" (Lab.url "ardop" "LA1B" []) 3 Runs.start).
  - apply resolves_here; [done | reflexivity].
  - reflexivity.
  - left. split; [reflexivity | vm_compute; reflexivity].
Defined.

Lemma hasSSID_spec_witness :
  hasSSID "LA5NTA-1" = true ∧ ¬ ∃ a b, "LA5NTA" = a +:+ "-" +:+ b.
Proof.
  split.
  - apply (proj2 (hasSSID_spec "LA5NTA-1")). by exists "LA5NTA", "1".
  - intros H. apply (proj2 (hasSSID_spec "LA5NTA")) in H. discriminate H.
Defined.

Lemma applyDefaults_stable_witness :
  User (applyDefaults Runs.plain Runs.telnet_url) = Some (mkUserinfo "LA5NTA" None)
  ∧ (Host (applyDefaults Runs.plain
             (mkURL "serial-tnc" "/dev/ttyS0" None "LA1B" [] ∅)) = "/dev/ttyS0"
     ∧ Params (applyDefaults Runs.plain
                 (mkURL "serial-tnc" "/dev/ttyS0" None "LA1B" [] ∅)) = ∅)
  ∧ applyDefaults Runs.plain (applyDefaults Runs.plain (Lab.url "serial-tnc" "LA1B" []))
    = applyDefaults Runs.plain (Lab.url "serial-tnc" "LA1B" []).
Proof.
  split; [|split].
  - apply (proj1 (applyDefaults_stable Runs.plain Runs.telnet_url)). reflexivity.
  - apply (proj1 (proj2 (applyDefaults_stable Runs.plain
                           (mkURL "serial-tnc" "/dev/ttyS0" None "LA1B" [] ∅)))).
    simpl. discriminate.
  - apply (proj2 (proj2 (applyDefaults_stable Runs.plain (Lab.url "serial-tnc" "LA1B" [])))).
Defined.

Lemma getMsgIds_single_new_witness :
  Ehaw.getMsgIds ["A1B2C3D4E5F6"; "Q7W8E9R0T1Y3"]
    (["Q7W8E9R0T1Y3"] ++ "M4N5P6R7S8T9" :: ["A1B2C3D4E5F6"])
  = ["M4N5P6R7S8T9"].
Proof.
  apply (getMsgIds_single_new ["A1B2C3D4E5F6"; "Q7W8E9R0T1Y3"] ["Q7W8E9R0T1Y3"]
           ["A1B2C3D4E5F6"] "M4N5P6R7S8T9").
  - apply (bool_decide_unpack _). vm_compute. exact I.
  - intros y Hy. apply (bool_decide_unpack _) . revert y Hy.
    apply Forall_forall. apply (bool_decide_unpack _). vm_compute. exact I.
Defined.

Lemma getMsgBoxList_trims_both_ends_witness :
  "ZZ00ZZ00ZZ" ∈ (Ehaw.getMsgBoxList Trials.out_folder "mailbox" "KO2F" "out").1.1
  ∧ (∀ c, Ehaw.first_byte "ZZ00ZZ00ZZ" = Some c → Ehaw.in_cutset ".b2f" c = false)
  ∧ (∀ d, Ehaw.last_byte "ZZ00ZZ00ZZ" = Some d → Ehaw.in_cutset ".b2f" d = false).
Proof.
  assert ("ZZ00ZZ00ZZ" ∈ (Ehaw.getMsgBoxList Trials.out_folder "mailbox" "KO2F" "out").1.1)
    as Hin.
  { apply (bool_decide_unpack _). vm_compute. exact I. }
  split; [exact Hin|].
  exact (getMsgBoxList_trims_both_ends Trials.out_folder "mailbox" "KO2F" "out"
           "ZZ00ZZ00ZZ" Hin).
Defined.

Lemma bytes_Trim_b2f_roundtrip_witness :
  Ehaw.bytes_Trim ("A1B2C3D4E5F6" +:+ ".b2f") ".b2f" = "A1B2C3D4E5F6"
  ∧ Ehaw.bytes_Trim ("ZZ00ZZ00ZZ2" +:+ ".b2f") ".b2f" ≠ "ZZ00ZZ00ZZ2".
Proof.
  split.
  - apply (proj2 (bytes_Trim_b2f_roundtrip "A1B2C3D4E5F6" ltac:(discriminate))).
    reflexivity.
  - intros H.
    apply (proj1 (bytes_Trim_b2f_roundtrip "ZZ00ZZ00ZZ2" ltac:(discriminate))) in H.
    discriminate H.
Defined.

Lemma getMsgBoxList_roundtrip_witness :
  Ehaw.getMsgBoxList Trials.tidy_folder "mailbox" "KO2F" "sent"
  = (["A1B2C3D4E5F6"; "Q7W8E9R0T1Y3"], None, []).
Proof.
  apply (getMsgBoxList_roundtrip Trials.tidy_folder "mailbox" "KO2F" "sent"
           ["A1B2C3D4E5F6"; "Q7W8E9R0T1Y3"]).
  - reflexivity.
  - reflexivity.
Defined.

Lemma getEhawCfg_outcomes_witness :
  Ehaw.getEhawCfg Trials.no_file Trials.parsed_json "cfg.json"
    (Ehaw.mkEhawConfig "u" "p" "h" "d") = None
  ∧ Ehaw.getEhawCfg Trials.no_file Trials.parsed_json ("/home/pat/" +:+ "config.json")
      (Ehaw.mkEhawConfig "u" "p" "h" "d")
    = Some (Some (ErrNew "open /home/pat/eHaW_config.json"), Ehaw.mkEhawConfig "u" "p" "h" "d")
  ∧ Ehaw.getEhawCfg Trials.empty_json Trials.parsed_json ("/home/pat/" +:+ "Config.JSON")
      (Ehaw.mkEhawConfig "u" "p" "h" "d")
    = Some (None, Ehaw.mkEhawConfig "" "" "" "").
Proof.
  split; [|split].
  - apply (proj1 (getEhawCfg_outcomes Trials.no_file Trials.parsed_json
                    (Ehaw.mkEhawConfig "u" "p" "h" "d"))).
    simpl. lia.
  - apply (proj1 (proj2 (getEhawCfg_outcomes Trials.no_file Trials.parsed_json
                           (Ehaw.mkEhawConfig "u" "p" "h" "d")))
             "/home/pat/" "config.json").
    + reflexivity.
    + reflexivity.
  - apply (proj2 (proj2 (getEhawCfg_outcomes Trials.empty_json Trials.parsed_json
                           (Ehaw.mkEhawConfig "u" "p" "h" "d")))
             "/home/pat/" "Config.JSON" "{}" ∅).
    + reflexivity.
    + reflexivity.
    + reflexivity.
    + reflexivity.
Defined.
